(** * Rio-SPA-Lite: the event classifier, live timeline and archive
      reconciler of [frontend/src/App.tsx]

    A shallow embedding of the reactive core of the [App] component: the
    [onUpdateEvent] stream handler, the archive [useEffect], and
    [handleSubmit].  JavaScript values are modelled as a JSON tree with the
    language's own rules for member access, truthiness, [Array.prototype.join],
    [Set] and template literals; a [TypeError] is an explicit outcome. *)

From Stdlib Require Import List NArith ZArith Ascii String Bool Lia Decimal.
From Stdlib Require Import DecimalPos DecimalZ.
From stdpp Require Import base option list gmap.

Set Warnings "-register-all".

(** ** JavaScript strings

    A string is its sequence of UTF-16 code units.  Literals of the source are
    written [js "..."]. *)

Definition js (s : string) : list N :=
  map N_of_ascii (list_ascii_of_string s).
Arguments js s%_string.

Definition is_empty (s : list N) : bool :=
  match s with [] => true | _ :: _ => false end.

Definition str_eqb (s t : list N) : bool := bool_decide (s = t).

(** [strings.join(sep)] for an array whose elements are already strings. *)
Fixpoint join_strings (sep : list N) (l : list (list N)) : list N :=
  match l with
  | [] => []
  | [s] => s
  | s :: rest => s ++ sep ++ join_strings sep rest
  end.

(** Decimal rendering of an integral number ([Number.prototype.toString] on
    an array length or on [Date.now()]). *)
Definition digit_unit (d : nat) : N := (48 + N.of_nat d)%N.

Fixpoint uint_units (d : Decimal.uint) : list N :=
  match d with
  | Nil => []
  | D0 r => digit_unit 0 :: uint_units r
  | D1 r => digit_unit 1 :: uint_units r
  | D2 r => digit_unit 2 :: uint_units r
  | D3 r => digit_unit 3 :: uint_units r
  | D4 r => digit_unit 4 :: uint_units r
  | D5 r => digit_unit 5 :: uint_units r
  | D6 r => digit_unit 6 :: uint_units r
  | D7 r => digit_unit 7 :: uint_units r
  | D8 r => digit_unit 8 :: uint_units r
  | D9 r => digit_unit 9 :: uint_units r
  end.

Definition nat_to_js (n : nat) : list N := uint_units (Nat.to_uint n).

Definition Z_to_js (z : Z) : list N :=
  match Z.to_int z with
  | Pos d => uint_units d
  | Neg d => js "-" ++ uint_units d
  end.

(** [String.prototype.trim]: white space and line terminators of ECMAScript,
    all of them in the basic plane. *)
Definition is_js_whitespace (c : N) : bool :=
  existsb (N.eqb c)
    [9; 10; 11; 12; 13; 32; 160; 5760;
     8192; 8193; 8194; 8195; 8196; 8197; 8198; 8199; 8200; 8201; 8202;
     8232; 8233; 8239; 8287; 12288; 65279]%N.

Fixpoint trim_start (s : list N) : list N :=
  match s with
  | c :: rest => if is_js_whitespace c then trim_start rest else s
  | [] => []
  end.

Definition trim (s : list N) : list N :=
  rev (trim_start (rev (trim_start s))).

(** ** Outcomes: a value or a thrown [TypeError] *)

Inductive Res (A : Type) : Type :=
| Ok (a : A)
| Throw.
Arguments Ok {A} a.
Arguments Throw {A}.

#[global] Instance Res_ret : MRet Res := @Ok.
#[global] Instance Res_bind : MBind Res := fun A B f r =>
  match r with
  | Ok a => f a
  | Throw => Throw
  end.

Definition res_mapM {A B : Type} (f : A -> Res B) : list A -> Res (list B) :=
  fix go (l : list A) : Res (list B) :=
    match l with
    | [] => Ok []
    | x :: rest =>
        match f x with
        | Ok y => match go rest with Ok ys => Ok (y :: ys) | Throw => Throw end
        | Throw => Throw
        end
    end.

(** ** JavaScript values delivered by the stream

    An event is what [JSON.parse] builds: a tree without sharing.  A number is
    kept as its rendering by [Number::toString]; the handler never computes
    with an event's numbers, it only tests them ([0] and [NaN] are falsy),
    prints them and compares them in a [Set], and two numbers are the same
    value for a [Set] exactly when they print alike.  An object is the list of
    its own properties, the first entry of a key being the one in force. *)

Inductive JsVal : Type :=
| JUndefined
| JNull
| JBool (b : bool)
| JNum (shown : list N)
| JStr (s : list N)
| JArr (items : list JsVal)
| JObj (props : list (list N * JsVal)).

Definition truthy (v : JsVal) : bool :=
  match v with
  | JUndefined | JNull => false
  | JBool b => b
  | JNum shown => negb (str_eqb shown (js "0")) && negb (str_eqb shown (js "NaN"))
  | JStr s => negb (is_empty s)
  | JArr _ | JObj _ => true
  end.

Definition nullish (v : JsVal) : bool :=
  match v with
  | JUndefined | JNull => true
  | _ => false
  end.

(** [v === "literal"] *)
Definition strict_eq_str (v : JsVal) (s : list N) : bool :=
  match v with
  | JStr t => str_eqb t s
  | _ => false
  end.

Fixpoint lookup_prop (k : list N) (props : list (list N * JsVal)) : JsVal :=
  match props with
  | [] => JUndefined
  | (k', v) :: rest => if str_eqb k k' then v else lookup_prop k rest
  end.

Definition has_prop (k : list N) (props : list (list N * JsVal)) : bool :=
  existsb (fun kv => str_eqb k (fst kv)) props.

(** [v.k] for the property names the handler reads ([event], [type], [name],
    [data], [output], [query_list], [sources_gathered], [label],
    [is_sufficient], [follow_up_queries] and the four stage names): none of
    them is a property of a string, number, boolean or array, nor of
    [Object.prototype].  Reading a property of [undefined] or [null] throws. *)
Definition get (v : JsVal) (k : list N) : Res JsVal :=
  match v with
  | JUndefined | JNull => Throw
  | JObj props => Ok (lookup_prop k props)
  | JBool _ | JNum _ | JStr _ | JArr _ => Ok JUndefined
  end.

(** [a || b], the second operand evaluated only when the first is falsy. *)
Definition js_or (a : JsVal) (b : Res JsVal) : Res JsVal :=
  if truthy a then Ok a else b.

(** [ToString].  An array prints as its elements joined by [","], where
    [undefined] and [null] elements print as nothing; a plain object prints as
    ["[object Object]"], unless it has a [toString] property of its own, which
    no JSON value can make callable, and the conversion throws. *)
Fixpoint to_string (v : JsVal) : Res (list N) :=
  match v with
  | JUndefined => Ok (js "undefined")
  | JNull => Ok (js "null")
  | JBool true => Ok (js "true")
  | JBool false => Ok (js "false")
  | JNum shown => Ok shown
  | JStr s => Ok s
  | JArr items =>
      match res_mapM (fun x => if nullish x then Ok [] else to_string x) items with
      | Ok strs => Ok (join_strings (js ",") strs)
      | Throw => Throw
      end
  | JObj props =>
      if has_prop (js "toString") props then Throw else Ok (js "[object Object]")
  end.

(** An element as [Array.prototype.join] prints it. *)
Definition join_element (x : JsVal) : Res (list N) :=
  if nullish x then Ok [] else to_string x.

Definition array_join (sep : list N) (items : list JsVal) : Res (list N) :=
  strs ← res_mapM join_element items; mret (join_strings sep strs).

(** [v.join(sep)]: only an array has a callable [join]. *)
Definition call_join (v : JsVal) (sep : list N) : Res (list N) :=
  match v with
  | JArr items => array_join sep items
  | _ => Throw
  end.

(** [v?.join(sep) || dflt] *)
Definition join_or (v : JsVal) (sep dflt : list N) : Res (list N) :=
  if nullish v then Ok dflt
  else s ← call_join v sep; mret (if is_empty s then dflt else s).

(** SameValueZero, the equality of [Set].  Two arrays or objects of a parsed
    event are never the same reference. *)
Definition same_value_zero (a b : JsVal) : bool :=
  match a, b with
  | JUndefined, JUndefined | JNull, JNull => true
  | JBool x, JBool y => Bool.eqb x y
  | JNum x, JNum y => str_eqb x y
  | JStr x, JStr y => str_eqb x y
  | _, _ => false
  end.

(** [[...new Set(xs)]]: each element is added unless already present, and the
    set iterates in insertion order. *)
Definition set_add (acc : list JsVal) (x : JsVal) : list JsVal :=
  if existsb (same_value_zero x) acc then acc else acc ++ [x].

Definition new_Set (xs : list JsVal) : list JsVal := fold_left set_add xs [].

(** ** The state owned by [App] and the effects of its callbacks *)

(** [ProcessedEvent] of the activity timeline. *)
Record Activity : Type := { title : list N; data : list N }.

(** [Message] of the stream library, as far as [App] reads and builds it. *)
Record Message : Type := {
  type : list N;
  content : list N;
  id : option (list N)
}.

Record AgentConfiguration : Type := {
  query_generator_model : list N;
  reflection_model : list N;
  answer_model : list N;
  number_of_initial_queries : Z;
  max_research_loops : Z;
  enable_thinking : option bool
}.

(** The [configurable] object built by [handleSubmit]. *)
Record Configurable : Type := {
  cfg_query_generator_model : list N;
  cfg_reflection_model : list N;
  cfg_answer_model : list N;
  cfg_number_of_initial_queries : Z;
  cfg_max_research_loops : Z;
  cfg_enable_thinking : bool
}.

(** What the callbacks do to the world, in program order. *)
Inductive Cmd : Type :=
| ClearTimeline                       (* setProcessedEventsTimeline([]) *)
| AppendTimeline (a : Activity)       (* setProcessedEventsTimeline(prev => [...prev, a]) *)
| SetFinalizeFlag (b : bool)          (* hasFinalizeEventOccurredRef.current = b *)
| PutHistory (key : list N) (acts : list Activity)
                                      (* setHistoricalActivities(prev => ({...prev, [key]: acts})) *)
| ThreadSubmit (msgs : list Message) (cfg : Configurable).
                                      (* thread.submit({messages: msgs}, {configurable: cfg}) *)

Record AppState : Type := {
  processedEventsTimeline : list Activity;
  historicalActivities : gmap (list N) (list Activity);
  hasFinalizeEventOccurred : bool;
  submitted : list (list Message * Configurable)
}.

(** The part of [thread] that [App] reads. *)
Record Thread : Type := { messages : list Message; isLoading : bool }.

Definition exec (st : AppState) (c : Cmd) : AppState :=
  match c with
  | ClearTimeline =>
      {| processedEventsTimeline := [];
         historicalActivities := historicalActivities st;
         hasFinalizeEventOccurred := hasFinalizeEventOccurred st;
         submitted := submitted st |}
  | AppendTimeline a =>
      {| processedEventsTimeline := processedEventsTimeline st ++ [a];
         historicalActivities := historicalActivities st;
         hasFinalizeEventOccurred := hasFinalizeEventOccurred st;
         submitted := submitted st |}
  | SetFinalizeFlag b =>
      {| processedEventsTimeline := processedEventsTimeline st;
         historicalActivities := historicalActivities st;
         hasFinalizeEventOccurred := b;
         submitted := submitted st |}
  | PutHistory key acts =>
      {| processedEventsTimeline := processedEventsTimeline st;
         historicalActivities := <[key := acts]> (historicalActivities st);
         hasFinalizeEventOccurred := hasFinalizeEventOccurred st;
         submitted := submitted st |}
  | ThreadSubmit msgs cfg =>
      {| processedEventsTimeline := processedEventsTimeline st;
         historicalActivities := historicalActivities st;
         hasFinalizeEventOccurred := hasFinalizeEventOccurred st;
         submitted := submitted st ++ [(msgs, cfg)] |}
  end.

Definition exec_all (cmds : list Cmd) (st : AppState) : AppState :=
  fold_left exec cmds st.

(** A callback body: the effects it has issued so far and how it ended. *)
Record M (A : Type) : Type := Run { emitted : list Cmd; outcome : Res A }.
Arguments Run {A} emitted outcome.
Arguments emitted {A} m.
Arguments outcome {A} m.

#[global] Instance M_ret : MRet M := fun A a => Run [] (Ok a).
#[global] Instance M_bind : MBind M := fun A B f m =>
  match outcome m with
  | Ok a => Run (emitted m ++ emitted (f a)) (outcome (f a))
  | Throw => Run (emitted m) Throw
  end.

Definition eval {A : Type} (r : Res A) : M A := Run [] r.
Definition emit (c : Cmd) : M unit := Run [c] (Ok tt).

(** ** [onUpdateEvent]: the event classifier *)

Definition on_chain_start : list N := js "on_chain_start".
Definition on_chain_end : list N := js "on_chain_end".

Definition generating_start : Activity :=
  {| title := js "Generating Search Queries"; data := js "Creating search queries..." |}.
Definition web_research_start : Activity :=
  {| title := js "Web Research"; data := js "Searching the web..." |}.
Definition reflection_start : Activity :=
  {| title := js "Reflection"; data := js "Analyzing gathered information..." |}.
Definition finalizing : Activity :=
  {| title := js "Finalizing Answer";
     data := js "Composing and presenting the final answer." |}.

(** The text built from [container.sources_gathered], where [container] is
    [eventData.output] on the traced path and [event.web_research] on the
    fallback path (the source repeats the same statements in both places).
    [sources.length] never throws, [sources.map] throws on anything that is
    not an array, and [s.label] throws on an [undefined] or [null] element. *)
Definition gathered_sources_text (container : JsVal) : Res (list N) :=
  sg ← get container (js "sources_gathered");
  let sources := if truthy sg then sg else JArr [] in
  match sources with
  | JArr items =>
      let numSources := length items in
      labels ← res_mapM (fun s => get s (js "label")) items;
      let uniqueLabels := new_Set (List.filter truthy labels) in
      exampleLabels ← array_join (js ", ") (take 3 uniqueLabels);
      mret (js "Gathered " ++ nat_to_js numSources ++ js " sources. Related to: "
              ++ (if is_empty exampleLabels then js "N/A" else exampleLabels)
              ++ js ".")
  | _ => Throw
  end.

(** The text built from the reflection output [o] ([eventData.output] or
    [event.reflection]). *)
Definition reflection_text (o : JsVal) : Res (list N) :=
  sufficient ← get o (js "is_sufficient");
  if truthy sufficient then mret (js "Search successful, generating final answer.")
  else
    queries ← get o (js "follow_up_queries");
    shown ← join_or queries (js ", ") (js "additional info");
    mret (js "Need more information, searching for " ++ shown).

(** The block guarded by [eventType === "on_chain_end" || eventType ===
    "on_chain_start"]; the result is the value of [processedEvent] after it. *)
Definition traced_path (eventType eventName eventData : JsVal) : M (option Activity) :=
  if strict_eq_str eventType on_chain_end || strict_eq_str eventType on_chain_start then
    if strict_eq_str eventName (js "generate_query") && truthy eventData then
      output ← eval (get eventData (js "output"));
      query_list ← eval (if truthy output then get output (js "query_list") else Ok output);
      if truthy query_list then
        joined ← eval (call_join query_list (js ", "));
        mret (Some {| title := js "Generating Search Queries"; data := joined |})
      else if strict_eq_str eventType on_chain_start then mret (Some generating_start)
      else mret None
    else if strict_eq_str eventName (js "web_research") && truthy eventData then
      output ← eval (get eventData (js "output"));
      if truthy output then
        text ← eval (gathered_sources_text output);
        mret (Some {| title := js "Web Research"; data := text |})
      else if strict_eq_str eventType on_chain_start then mret (Some web_research_start)
      else mret None
    else if strict_eq_str eventName (js "reflection") && truthy eventData then
      output ← eval (get eventData (js "output"));
      if truthy output then
        text ← eval (reflection_text output);
        mret (Some {| title := js "Reflection"; data := text |})
      else if strict_eq_str eventType on_chain_start then mret (Some reflection_start)
      else mret None
    else if strict_eq_str eventName (js "finalize_answer") then
      if strict_eq_str eventType on_chain_start then
        emit (SetFinalizeFlag true);; mret (Some finalizing)
      else mret None
    else mret None
  else mret None.

(** The block guarded by [!processedEvent]: the flattened event shape. *)
Definition fallback_path (event : JsVal) : M (option Activity) :=
  generate_query ← eval (get event (js "generate_query"));
  if truthy generate_query then
    query_list ← eval (get generate_query (js "query_list"));
    text ← eval (join_or query_list (js ", ") (js "Creating queries..."));
    mret (Some {| title := js "Generating Search Queries"; data := text |})
  else
    web_research ← eval (get event (js "web_research"));
    if truthy web_research then
      text ← eval (gathered_sources_text web_research);
      mret (Some {| title := js "Web Research"; data := text |})
    else
      reflection ← eval (get event (js "reflection"));
      if truthy reflection then
        text ← eval (reflection_text reflection);
        mret (Some {| title := js "Reflection"; data := text |})
      else
        finalize_answer ← eval (get event (js "finalize_answer"));
        if truthy finalize_answer then
          emit (SetFinalizeFlag true);; mret (Some finalizing)
        else mret None.

(** The event's declared type, [event.event || event.type]. *)
Definition event_type (event : JsVal) : Res JsVal :=
  declared ← get event (js "event"); js_or declared (get event (js "type")).

(** The first half of [onUpdateEvent]: the three fields are read, then the
    traced block runs. *)
Definition traced_form (event : JsVal) : M (option Activity) :=
  eventType ← eval (event_type event);
  eventName ← eval (get event (js "name"));
  eventData ← eval (get event (js "data"));
  traced_path eventType eventName eventData.

(** [onUpdateEvent] up to the final value of [processedEvent]. *)
Definition classify (event : JsVal) : M (option Activity) :=
  processedEvent ← traced_form event;
  match processedEvent with
  | Some _ => mret processedEvent
  | None => fallback_path event
  end.

Definition onUpdateEvent (event : JsVal) : M unit :=
  processedEvent ← classify event;
  match processedEvent with
  | Some a => emit (AppendTimeline a)
  | None => mret tt
  end.

(** The state after the stream has delivered [event]: the effects issued by
    the handler are applied, whether it returned or threw. *)
Definition deliver (st : AppState) (event : JsVal) : AppState :=
  exec_all (emitted (onUpdateEvent event)) st.

Definition deliver_all (events : list JsVal) (st : AppState) : AppState :=
  fold_left deliver events st.

(** ** The archive effect *)

Definition last_message (msgs : list Message) : option Message := last msgs.

(** [lastMessage.id] is truthy: present and not the empty string. *)
Definition known_id (m : Message) : option (list N) :=
  match id m with
  | Some i => if is_empty i then None else Some i
  | None => None
  end.

(** The body of the second [useEffect], run with the [thread] and the
    timeline of the current render. *)
Definition archiveEffect (thread : Thread) (st : AppState) : list Cmd :=
  if hasFinalizeEventOccurred st && negb (isLoading thread)
     && (0 <? length (messages thread))%nat
  then
    match last_message (messages thread) with
    | Some lastMessage =>
        if str_eqb (type lastMessage) (js "ai") then
          match known_id lastMessage with
          | Some key => [PutHistory key (processedEventsTimeline st)]
          | None => []
          end
        else []
    | None => []
    end ++ [SetFinalizeFlag false]
  else [].

Definition reconcile (thread : Thread) (st : AppState) : AppState :=
  exec_all (archiveEffect thread st) st.

(** ** [handleSubmit] *)

Definition configurable_of (config : AgentConfiguration) : Configurable :=
  {| cfg_query_generator_model := query_generator_model config;
     cfg_reflection_model := reflection_model config;
     cfg_answer_model := answer_model config;
     cfg_number_of_initial_queries := number_of_initial_queries config;
     cfg_max_research_loops := max_research_loops config;
     cfg_enable_thinking :=
       match enable_thinking config with Some b => b | None => false end |}.

(** [now] is the value of [Date.now()] at the call. *)
Definition handleSubmit (thread : Thread) (now : Z)
    (submittedInputValue : list N) (config : AgentConfiguration) : list Cmd :=
  if is_empty (trim submittedInputValue) then []
  else
    let newMessages :=
      messages thread
        ++ [ {| type := js "human";
                content := submittedInputValue;
                id := Some (Z_to_js now) |} ] in
    [ClearTimeline; SetFinalizeFlag false;
     ThreadSubmit newMessages (configurable_of config)].

Definition submit (thread : Thread) (now : Z) (text : list N)
    (config : AgentConfiguration) (st : AppState) : AppState :=
  exec_all (handleSubmit thread now text config) st.

(** ** The two event shapes, as the claims speak of them *)

Definition stage_names : list (list N) :=
  [js "generate_query"; js "web_research"; js "reflection"; js "finalize_answer"].

(** The event declares one of the two chain markers. *)
Definition traced_marker (event : JsVal) : bool :=
  match event_type event with
  | Ok t => strict_eq_str t on_chain_end || strict_eq_str t on_chain_start
  | Throw => false
  end.

(** The event names one of the four stages in its [name] field. *)
Definition names_stage (event : JsVal) : bool :=
  match get event (js "name") with
  | Ok n => existsb (strict_eq_str n) stage_names
  | Throw => false
  end.

(** A traced event for [stage] that carries an output (the end signal). *)
Definition traced_output (event : JsVal) (stage : list N) (output : JsVal) : Prop :=
  exists props eventData,
    event = JObj props /\ traced_marker event = true
    /\ lookup_prop (js "name") props = JStr stage
    /\ lookup_prop (js "data") props = eventData
    /\ get eventData (js "output") = Ok output /\ truthy output = true.

(** A flattened event: no chain marker, and [stage] is the one stage key
    that holds something. *)
Definition flattened_entry (event : JsVal) (stage : list N) (entry : JsVal) : Prop :=
  exists props,
    event = JObj props /\ traced_marker event = false
    /\ lookup_prop stage props = entry /\ truthy entry = true
    /\ forall k, k ∈ stage_names -> k <> stage -> truthy (lookup_prop k props) = false.

Definition end_signal (event : JsVal) (stage : list N) (payload : JsVal) : Prop :=
  traced_output event stage payload \/ flattened_entry event stage payload.

(** The body that both paths run for a web research payload, and for a
    reflection payload. *)
Definition web_research_result (o : JsVal) : M (option Activity) :=
  text ← eval (gathered_sources_text o);
  mret (Some {| title := js "Web Research"; data := text |}).

Definition reflection_result (o : JsVal) : M (option Activity) :=
  text ← eval (reflection_text o);
  mret (Some {| title := js "Reflection"; data := text |}).

(** The Activities that a sequence of events puts on the timeline. *)
Definition classified (events : list JsVal) : list Activity :=
  flat_map (fun e => match outcome (classify e) with
                     | Ok (Some a) => [a]
                     | _ => []
                     end) events.

(** A gathered source record whose label is a string, [null] or absent. *)
Inductive source_record : JsVal -> option (list N) -> Prop :=
| source_labelled props s :
    lookup_prop (js "label") props = JStr s -> source_record (JObj props) (Some s)
| source_null props :
    lookup_prop (js "label") props = JNull -> source_record (JObj props) None
| source_unlabelled props :
    lookup_prop (js "label") props = JUndefined -> source_record (JObj props) None.

(** The distinct non-empty labels, each at its first occurrence. *)
Fixpoint first_occurrences (seen : list (list N)) (l : list (list N)) : list (list N) :=
  match l with
  | [] => []
  | x :: rest =>
      if bool_decide (x ∈ seen) then first_occurrences seen rest
      else x :: first_occurrences (x :: seen) rest
  end.

Definition nonempty_labels (labels : list (option (list N))) : list (list N) :=
  flat_map (fun o => match o with
                     | Some (c :: s) => [c :: s]
                     | _ => []
                     end) labels.

Definition distinct_labels (labels : list (option (list N))) : list (list N) :=
  first_occurrences [] (nonempty_labels labels).

Definition related_to (labels : list (option (list N))) : list N :=
  match take 3 (distinct_labels labels) with
  | [] => js "N/A"
  | picked => join_strings (js ", ") picked
  end.

(** ** Sample events and states *)

Definition obj (fields : list (string * JsVal)) : JsVal :=
  JObj (map (fun kv => (js (fst kv), snd kv)) fields).
Definition str (s : string) : JsVal := JStr (js s).
Arguments str s%_string.

Definition sample_sources : list JsVal :=
  [ obj [("label", str "a")]; obj [("label", str "a")];
    obj [("label", str "b")]; obj [("label", JNull)] ]%string.

Definition web_research_traced_event : JsVal :=
  obj [("event", str "on_chain_end"); ("name", str "web_research");
       ("data", obj [("output", obj [("sources_gathered", JArr sample_sources)])])]%string.

Definition web_research_flat_event : JsVal :=
  obj [("web_research", obj [("sources_gathered", JArr sample_sources)])]%string.

Definition reflection_payload : JsVal :=
  obj [("is_sufficient", JBool false); ("follow_up_queries", JArr [])]%string.

Definition reflection_flat_event : JsVal :=
  obj [("reflection", reflection_payload)]%string.

Definition reflection_traced_event : JsVal :=
  obj [("event", str "on_chain_end"); ("name", str "reflection");
       ("data", obj [("output", reflection_payload)])]%string.

Definition finalize_start_event : JsVal :=
  obj [("event", str "on_chain_start"); ("name", str "finalize_answer")]%string.

Definition generate_query_bare_event : JsVal :=
  obj [("generate_query", obj [])]%string.

(** Matches both shapes: a traced start of [generate_query] that also has a
    [reflection] key. *)
Definition both_shapes_event : JsVal :=
  obj [("event", str "on_chain_start"); ("name", str "generate_query");
       ("data", obj []); ("reflection", obj [("is_sufficient", JBool true)])]%string.

Definition unknown_traced_props : list (list N * JsVal) :=
  [(js "event", str "on_chain_end"); (js "name", str "route_query");
   (js "data", obj [("output", obj [])]%string)].

Definition unknown_flat_props : list (list N * JsVal) :=
  [(js "summarize", obj [("text", str "done")]%string)].

Definition activity_A : Activity := {| title := js "Web Research"; data := js "A" |}.
Definition activity_B : Activity := {| title := js "Reflection"; data := js "B" |}.

Definition human_message_u1 : Message :=
  {| type := js "human"; content := js "question"; id := Some (js "u1") |}.
Definition ai_message_m1 : Message :=
  {| type := js "ai"; content := js "answer"; id := Some (js "m1") |}.

Definition thread_answered : Thread :=
  {| messages := [human_message_u1; ai_message_m1]; isLoading := false |}.
Definition thread_unanswered : Thread :=
  {| messages := [human_message_u1]; isLoading := false |}.

Definition state_after_finalize : AppState :=
  {| processedEventsTimeline := [activity_A; activity_B];
     historicalActivities := ∅;
     hasFinalizeEventOccurred := true;
     submitted := [] |}.

(** The state of [App] when it mounts. *)
Definition initial_state : AppState :=
  {| processedEventsTimeline := [];
     historicalActivities := ∅;
     hasFinalizeEventOccurred := false;
     submitted := [] |}.

(** A run in which the engine reports the query stage twice. *)
Definition sample_run : list JsVal :=
  [generate_query_bare_event; generate_query_bare_event; finalize_start_event].

Definition creating_queries : Activity :=
  {| title := js "Generating Search Queries"; data := js "Creating queries..." |}.

(** A thread whose one message was submitted at the clock reading
    1730000000000. *)
Definition human_message_at_clock : Message :=
  {| type := js "human"; content := js "question";
     id := Some (js "1730000000000") |}.
Definition thread_same_clock : Thread :=
  {| messages := [human_message_at_clock]; isLoading := false |}.

Definition sample_config : AgentConfiguration :=
  {| query_generator_model := js "gemini-2.0-flash";
     reflection_model := js "gemini-2.5-flash";
     answer_model := js "gemini-2.5-pro";
     number_of_initial_queries := 3;
     max_research_loops := 3;
     enable_thinking := None |}.

(** ** The whole of [App] as a transition system *)

(** The start Activity that the traced block shows for a stage. *)
Definition start_activity (stage : list N) : option Activity :=
  if str_eqb stage (js "generate_query") then Some generating_start
  else if str_eqb stage (js "web_research") then Some web_research_start
  else if str_eqb stage (js "reflection") then Some reflection_start
  else if str_eqb stage (js "finalize_answer") then Some finalizing
  else None.

(** The titles of the three stages that do not end the run. *)
Definition ordinary_titles : list (list N) :=
  [js "Generating Search Queries"; js "Web Research"; js "Reflection"].

(** One reaction of [App]: the stream delivers an event, the archive effect
    runs against some [thread], or the user submits. *)
Inductive app_step : AppState -> AppState -> Prop :=
| step_event st event : app_step st (deliver st event)
| step_effect st thread : app_step st (reconcile thread st)
| step_submit st thread now text config :
    app_step st (submit thread now text config st).

Definition reachable (st : AppState) : Prop := rtc app_step initial_state st.

(** While the terminal flag is up the Live Timeline shows Finalizing Answer,
    and every archived timeline is filed under a non-empty id and contains
    Finalizing Answer. *)
Definition app_invariant (st : AppState) : Prop :=
  (hasFinalizeEventOccurred st = true -> finalizing ∈ processedEventsTimeline st)
  /\ (forall k acts, historicalActivities st !! k = Some acts ->
                     k <> [] /\ finalizing ∈ acts).

(** ** [InputForm] *)

Module InputForm.

#[local] Open Scope Z_scope.

(** The values offered by the effort [Select]. *)
Inductive Effort : Type := low | medium | high | custom.

Record Preset : Type := { queries : Z; loops : Z }.

Definition EFFORT_PRESETS (e : Effort) : Preset :=
  match e with
  | low => {| queries := 1; loops := 1 |}
  | medium => {| queries := 3; loops := 3 |}
  | high => {| queries := 5; loops := 10 |}
  | custom => {| queries := 3; loops := 3 |}
  end.

Record State : Type := {
  internalInputValue : list N;
  showAdvanced : bool;
  effort : Effort;
  queryGeneratorModel : list N;
  reflectionModel : list N;
  answerModel : list N;
  numberOfQueries : Z;
  maxLoops : Z
}.

(** The arguments of the [useState] calls. *)
Definition initial : State :=
  {| internalInputValue := [];
     showAdvanced := false;
     effort := medium;
     queryGeneratorModel := js "gemini-2.0-flash";
     reflectionModel := js "gemini-2.5-flash-preview-04-17";
     answerModel := js "gemini-2.5-flash-preview-04-17";
     numberOfQueries := 3;
     maxLoops := 3 |}.

(** What a handler of the form does, in program order. *)
Inductive FormCmd : Type :=
| PreventDefault
| CallOnSubmit (inputValue : list N) (config : AgentConfiguration)
| SetInternalInputValue (v : list N)
| SetShowAdvanced (b : bool)
| SetEffort (e : Effort)
| SetQueryGeneratorModel (v : list N)
| SetReflectionModel (v : list N)
| SetAnswerModel (v : list N)
| SetNumberOfQueries (n : Z)
| SetMaxLoops (n : Z).

Definition exec (st : State) (c : FormCmd) : State :=
  match c with
  | PreventDefault | CallOnSubmit _ _ => st
  | SetInternalInputValue v =>
      {| internalInputValue := v; showAdvanced := showAdvanced st;
         effort := effort st; queryGeneratorModel := queryGeneratorModel st;
         reflectionModel := reflectionModel st; answerModel := answerModel st;
         numberOfQueries := numberOfQueries st; maxLoops := maxLoops st |}
  | SetShowAdvanced b =>
      {| internalInputValue := internalInputValue st; showAdvanced := b;
         effort := effort st; queryGeneratorModel := queryGeneratorModel st;
         reflectionModel := reflectionModel st; answerModel := answerModel st;
         numberOfQueries := numberOfQueries st; maxLoops := maxLoops st |}
  | SetEffort e =>
      {| internalInputValue := internalInputValue st; showAdvanced := showAdvanced st;
         effort := e; queryGeneratorModel := queryGeneratorModel st;
         reflectionModel := reflectionModel st; answerModel := answerModel st;
         numberOfQueries := numberOfQueries st; maxLoops := maxLoops st |}
  | SetQueryGeneratorModel v =>
      {| internalInputValue := internalInputValue st; showAdvanced := showAdvanced st;
         effort := effort st; queryGeneratorModel := v;
         reflectionModel := reflectionModel st; answerModel := answerModel st;
         numberOfQueries := numberOfQueries st; maxLoops := maxLoops st |}
  | SetReflectionModel v =>
      {| internalInputValue := internalInputValue st; showAdvanced := showAdvanced st;
         effort := effort st; queryGeneratorModel := queryGeneratorModel st;
         reflectionModel := v; answerModel := answerModel st;
         numberOfQueries := numberOfQueries st; maxLoops := maxLoops st |}
  | SetAnswerModel v =>
      {| internalInputValue := internalInputValue st; showAdvanced := showAdvanced st;
         effort := effort st; queryGeneratorModel := queryGeneratorModel st;
         reflectionModel := reflectionModel st; answerModel := v;
         numberOfQueries := numberOfQueries st; maxLoops := maxLoops st |}
  | SetNumberOfQueries n =>
      {| internalInputValue := internalInputValue st; showAdvanced := showAdvanced st;
         effort := effort st; queryGeneratorModel := queryGeneratorModel st;
         reflectionModel := reflectionModel st; answerModel := answerModel st;
         numberOfQueries := n; maxLoops := maxLoops st |}
  | SetMaxLoops n =>
      {| internalInputValue := internalInputValue st; showAdvanced := showAdvanced st;
         effort := effort st; queryGeneratorModel := queryGeneratorModel st;
         reflectionModel := reflectionModel st; answerModel := answerModel st;
         numberOfQueries := numberOfQueries st; maxLoops := n |}
  end.

Definition exec_all (cmds : list FormCmd) (st : State) : State :=
  fold_left exec cmds st.

(** The calls of [onSubmit] among the effects. *)
Definition calls (cmds : list FormCmd) : list (list N * AgentConfiguration) :=
  flat_map (fun c => match c with
                     | CallOnSubmit v config => [(v, config)]
                     | _ => []
                     end) cmds.

(** *** [parseInt(value)], radix absent

    Leading white space is skipped, one sign is read, a [0x] or [0X] prefix
    selects radix 16, and the longest run of digits is read; without a digit
    the result is [NaN], here [None].  The value is kept exact: the handlers
    clamp it at once to [1, 10] or [1, 20], and the rounding of a long
    numeral to a double is monotone and leaves the integers up to 2^53 alone,
    so it cannot be seen after the clamp. *)
Definition digit_value (radix : Z) (c : N) : option Z :=
  let v :=
    if (48 <=? c)%N && (c <=? 57)%N then Some (Z.of_N c - 48)
    else if (97 <=? c)%N && (c <=? 122)%N then Some (Z.of_N c - 87)
    else if (65 <=? c)%N && (c <=? 90)%N then Some (Z.of_N c - 55)
    else None in
  match v with
  | Some d => if d <? radix then Some d else None
  | None => None
  end.

Fixpoint parse_digits (radix : Z) (s : list N) (acc : Z) : Z :=
  match s with
  | c :: rest =>
      match digit_value radix c with
      | Some d => parse_digits radix rest (radix * acc + d)
      | None => acc
      end
  | [] => acc
  end.

Definition starts_with_digit (radix : Z) (s : list N) : bool :=
  match s with
  | c :: _ => match digit_value radix c with Some _ => true | None => false end
  | [] => false
  end.

Definition parseInt (input : list N) : option Z :=
  let s := trim_start input in
  let '(sign, s) :=
    match s with
    | c :: rest =>
        if (c =? 45)%N then (-1, rest)
        else if (c =? 43)%N then (1, rest)
        else (1, s)
    | [] => (1, s)
    end in
  let '(radix, s) :=
    match s with
    | c0 :: c1 :: rest =>
        if (c0 =? 48)%N && ((c1 =? 120)%N || (c1 =? 88)%N) then (16, rest)
        else (10, s)
    | _ => (10, s)
    end in
  if starts_with_digit radix s then Some (sign * parse_digits radix s 0) else None.

(** [parseInt(value) || 1]: [NaN] and zero give 1. *)
Definition parsed_or_1 (value : list N) : Z :=
  match parseInt value with
  | Some 0 | None => 1
  | Some num => num
  end.

(** *** The handlers *)

Definition build_config (st : State) : AgentConfiguration :=
  {| query_generator_model := queryGeneratorModel st;
     reflection_model := reflectionModel st;
     answer_model := answerModel st;
     number_of_initial_queries := numberOfQueries st;
     max_research_loops := maxLoops st;
     enable_thinking := None |}.

(** [e] tells whether the handler was given an event (the form's [onSubmit])
    or none (the call from [handleInternalKeyDown]). *)
Definition handleInternalSubmit (e : bool) (st : State) : list FormCmd :=
  (if e then [PreventDefault] else [])
    ++ (if is_empty (trim (internalInputValue st)) then []
        else [CallOnSubmit (internalInputValue st) (build_config st);
              SetInternalInputValue []]).

Record KeyboardEvent : Type := { key : list N; shiftKey : bool }.

Definition handleInternalKeyDown (e : KeyboardEvent) (st : State) : list FormCmd :=
  if str_eqb (key e) (js "Enter") && negb (shiftKey e)
  then PreventDefault :: handleInternalSubmit false st
  else [].

Definition handleEffortChange (newEffort : Effort) : list FormCmd :=
  SetEffort newEffort
    :: match newEffort with
       | custom => []
       | _ => let preset := EFFORT_PRESETS newEffort in
              [SetNumberOfQueries (queries preset); SetMaxLoops (loops preset)]
       end.

Definition handleQueriesChange (value : list N) : list FormCmd :=
  let num := parsed_or_1 value in
  [SetNumberOfQueries (Z.max 1 (Z.min 10 num)); SetEffort custom].

Definition handleLoopsChange (value : list N) : list FormCmd :=
  let num := parsed_or_1 value in
  [SetMaxLoops (Z.max 1 (Z.min 20 num)); SetEffort custom].

Definition isSubmitDisabled (isLoading : bool) (st : State) : bool :=
  is_empty (trim (internalInputValue st)) || isLoading.

(** One interaction with the form: typing, a key, the form's submit, the
    effort select, the two number inputs, the model selects, the toggle. *)
Inductive step : State -> State -> Prop :=
| step_type st v : step st (exec st (SetInternalInputValue v))
| step_key st e : step st (exec_all (handleInternalKeyDown e st) st)
| step_submit st : step st (exec_all (handleInternalSubmit true st) st)
| step_effort st e : step st (exec_all (handleEffortChange e) st)
| step_queries st v : step st (exec_all (handleQueriesChange v) st)
| step_loops st v : step st (exec_all (handleLoopsChange v) st)
| step_query_model st v : step st (exec st (SetQueryGeneratorModel v))
| step_reflection_model st v : step st (exec st (SetReflectionModel v))
| step_answer_model st v : step st (exec st (SetAnswerModel v))
| step_toggle st : step st (exec st (SetShowAdvanced (negb (showAdvanced st)))).

(** The numbers are within the bounds of their inputs, and a preset effort
    shows the numbers of its preset. *)
Definition consistent (st : State) : Prop :=
  1 <= numberOfQueries st <= 10 /\ 1 <= maxLoops st <= 20
  /\ (effort st <> custom ->
      numberOfQueries st = queries (EFFORT_PRESETS (effort st))
      /\ maxLoops st = loops (EFFORT_PRESETS (effort st))).

End InputForm.

Arguments js : simpl never.

(** * Properties *)

(** ** Evaluation helpers *)

(** Comparisons between string literals are decided by computation. *)
Ltac literal_tests :=
  repeat match goal with
  | |- context [strict_eq_str (JStr (js ?a)) (js ?b)] =>
      let v := eval vm_compute in (strict_eq_str (JStr (js a)) (js b)) in
      change (strict_eq_str (JStr (js a)) (js b)) with v
  end.

Ltac run_monad :=
  unfold mbind, mret, M_bind, M_ret, Res_bind, Res_ret, eval, emit; cbn.

Lemma str_eqb_refl (s : list N) : str_eqb s s = true.
Proof. unfold str_eqb. now apply bool_decide_eq_true_2. Qed.

Lemma str_eqb_eq (s t : list N) : str_eqb s t = true <-> s = t.
Proof. unfold str_eqb. apply bool_decide_eq_true. Qed.

Lemma str_eqb_neq (s t : list N) : str_eqb s t = false <-> s <> t.
Proof. unfold str_eqb. apply bool_decide_eq_false. Qed.

(** Only an object has a field that holds something. *)
Lemma get_truthy_holder (v : JsVal) (k : list N) (x : JsVal) :
  get v k = Ok x -> truthy x = true -> truthy v = true /\ nullish v = false.
Proof.
  destruct v; cbn; intros H Hx; try discriminate;
    try (injection H as <-; discriminate); auto.
Qed.

Lemma event_type_marker (props : list (list N * JsVal)) :
  traced_marker (JObj props) = true ->
  exists t, event_type (JObj props) = Ok t
    /\ strict_eq_str t on_chain_end || strict_eq_str t on_chain_start = true.
Proof.
  unfold traced_marker. destruct (event_type (JObj props)) as [t|]; [|discriminate].
  eauto.
Qed.

Lemma event_type_obj (props : list (list N * JsVal)) :
  exists t, event_type (JObj props) = Ok t.
Proof.
  unfold event_type, js_or. run_monad.
  destruct (truthy (lookup_prop (js "event") props)); eauto.
Qed.

Lemma traced_form_obj (props : list (list N * JsVal)) (t : JsVal) :
  event_type (JObj props) = Ok t ->
  traced_form (JObj props)
  = traced_path t (lookup_prop (js "name") props) (lookup_prop (js "data") props).
Proof.
  intros Ht. unfold traced_form. rewrite Ht. run_monad.
  now destruct (traced_path _ _ _) as [cmds [r|]].
Qed.

(** ** What the classifier does with an end signal *)

Lemma traced_web_research (event o : JsVal) :
  traced_output event (js "web_research") o ->
  classify event = web_research_result o.
Proof.
  intros (props & d & -> & Hm & Hn & Hd & Ho & Ht).
  destruct (event_type_marker _ Hm) as (t & Et & Hmark).
  destruct (get_truthy_holder _ _ _ Ho Ht) as [Hd' _].
  unfold classify. rewrite (traced_form_obj _ _ Et), Hn, Hd.
  unfold traced_path. rewrite Hmark, Hd'. literal_tests. cbn [andb].
  unfold web_research_result. run_monad. rewrite Ho. cbn. rewrite Ht.
  destruct (gathered_sources_text o); reflexivity.
Qed.

Lemma traced_reflection (event o : JsVal) :
  traced_output event (js "reflection") o ->
  classify event = reflection_result o.
Proof.
  intros (props & d & -> & Hm & Hn & Hd & Ho & Ht).
  destruct (event_type_marker _ Hm) as (t & Et & Hmark).
  destruct (get_truthy_holder _ _ _ Ho Ht) as [Hd' _].
  unfold classify. rewrite (traced_form_obj _ _ Et), Hn, Hd.
  unfold traced_path. rewrite Hmark, Hd'. literal_tests. cbn [andb].
  unfold reflection_result. run_monad. rewrite Ho. cbn. rewrite Ht.
  destruct (reflection_text o); reflexivity.
Qed.

(** Without a chain marker the traced block is skipped. *)
Lemma unmarked_falls_back (props : list (list N * JsVal)) :
  traced_marker (JObj props) = false ->
  classify (JObj props) = fallback_path (JObj props).
Proof.
  intros Hm. destruct (event_type_obj props) as [t Et].
  unfold traced_marker in Hm. rewrite Et in Hm.
  unfold classify. rewrite (traced_form_obj _ _ Et).
  unfold traced_path. rewrite Hm. run_monad.
  now destruct (fallback_path (JObj props)) as [cmds [r|]].
Qed.

Lemma stage_name_in (k : list N) :
  In k stage_names -> k ∈ stage_names.
Proof. apply list_elem_of_In. Qed.

Ltac other_stage H k :=
  rewrite (H k) by
    (first [ apply stage_name_in; cbn; tauto | (intros E; vm_compute in E; discriminate) ]).

Lemma flattened_generate_query (event entry : JsVal) :
  flattened_entry event (js "generate_query") entry ->
  classify event
  = (query_list ← eval (get entry (js "query_list"));
     text ← eval (join_or query_list (js ", ") (js "Creating queries..."));
     mret (Some {| title := js "Generating Search Queries"; data := text |})).
Proof.
  intros (props & -> & Hm & He & Ht & Hothers).
  rewrite (unmarked_falls_back _ Hm).
  unfold fallback_path. run_monad. rewrite He, Ht.
  destruct (get entry (js "query_list")) as [ql|]; cbn; [|reflexivity].
  destruct (join_or ql _ _); reflexivity.
Qed.

Lemma flattened_web_research (event entry : JsVal) :
  flattened_entry event (js "web_research") entry ->
  classify event = web_research_result entry.
Proof.
  intros (props & -> & Hm & He & Ht & Hothers).
  rewrite (unmarked_falls_back _ Hm).
  unfold fallback_path, web_research_result. run_monad.
  other_stage Hothers (js "generate_query"). rewrite He, Ht.
  destruct (gathered_sources_text entry); reflexivity.
Qed.

Lemma flattened_reflection (event entry : JsVal) :
  flattened_entry event (js "reflection") entry ->
  classify event = reflection_result entry.
Proof.
  intros (props & -> & Hm & He & Ht & Hothers).
  rewrite (unmarked_falls_back _ Hm).
  unfold fallback_path, reflection_result. run_monad.
  other_stage Hothers (js "generate_query"). other_stage Hothers (js "web_research").
  rewrite He, Ht.
  destruct (reflection_text entry); reflexivity.
Qed.

Lemma end_signal_web_research (event o : JsVal) :
  end_signal event (js "web_research") o -> classify event = web_research_result o.
Proof. intros [H|H]; [now apply traced_web_research | now apply flattened_web_research]. Qed.

Lemma end_signal_reflection (event o : JsVal) :
  end_signal event (js "reflection") o -> classify event = reflection_result o.
Proof. intros [H|H]; [now apply traced_reflection | now apply flattened_reflection]. Qed.

(** ** Reflection text *)

Lemma reflection_text_sufficient (o s : JsVal) :
  get o (js "is_sufficient") = Ok s -> truthy s = true ->
  reflection_text o = Ok (js "Search successful, generating final answer.").
Proof. intros Hs Ht. unfold reflection_text. rewrite Hs. run_monad. now rewrite Ht. Qed.

Lemma reflection_text_no_queries (o s queries : JsVal) :
  get o (js "is_sufficient") = Ok s -> truthy s = false ->
  get o (js "follow_up_queries") = Ok queries ->
  nullish queries = true \/ queries = JArr [] ->
  reflection_text o = Ok (js "Need more information, searching for additional info").
Proof.
  intros Hs Ht Hq Hempty. unfold reflection_text. rewrite Hs. run_monad.
  rewrite Ht, Hq. cbn. unfold join_or.
  destruct Hempty as [Hn | ->]; [now rewrite Hn|]. reflexivity.
Qed.

(** ** Gathered sources *)

Lemma labels_of_records (items : list JsVal) (labels : list (option (list N))) :
  Forall2 source_record items labels ->
  exists vals,
    res_mapM (fun s => get s (js "label")) items = Ok vals
    /\ List.filter truthy vals = map JStr (nonempty_labels labels).
Proof.
  induction 1 as [|item lab items labels Hrec _ (vals & Hvals & Hfilter)].
  - exists []. now split.
  - destruct Hrec as [props s Hl | props Hl | props Hl];
      cbn [res_mapM get]; rewrite Hl, Hvals; eexists; (split; [reflexivity|]);
      cbn [List.filter truthy nonempty_labels flat_map]; rewrite Hfilter; try reflexivity.
    now destruct s.
Qed.

Lemma existsb_same_string (x : list N) (acc : list (list N)) :
  existsb (same_value_zero (JStr x)) (map JStr acc) = bool_decide (x ∈ acc).
Proof.
  induction acc as [|y acc IH]; cbn.
  - symmetry. apply bool_decide_eq_false_2. apply not_elem_of_nil.
  - rewrite IH. unfold str_eqb.
    destruct (decide (x = y)) as [->|Hxy].
    + rewrite bool_decide_eq_true_2 by reflexivity. cbn.
      symmetry. apply bool_decide_eq_true_2. apply list_elem_of_here.
    + rewrite (bool_decide_eq_false_2 _ Hxy). cbn.
      apply bool_decide_ext. rewrite elem_of_cons. tauto.
Qed.

Lemma set_add_strings (l seen acc : list (list N)) :
  (forall x, x ∈ seen <-> x ∈ acc) ->
  fold_left set_add (map JStr l) (map JStr acc)
  = map JStr (acc ++ first_occurrences seen l).
Proof.
  revert seen acc. induction l as [|x l IH]; intros seen acc Hsame; cbn.
  - now rewrite app_nil_r.
  - unfold set_add at 2. rewrite existsb_same_string.
    rewrite (bool_decide_ext (x ∈ seen) (x ∈ acc)) by apply Hsame.
    destruct (bool_decide (x ∈ acc)).
    + now apply IH.
    + change (map JStr acc ++ [JStr x]) with (map JStr acc ++ map JStr [x]).
      rewrite <- map_app. rewrite (IH (x :: seen) (acc ++ [x])).
      * now rewrite <- app_assoc.
      * intros y. rewrite elem_of_cons, elem_of_app, list_elem_of_singleton, Hsame. tauto.
Qed.

Lemma new_Set_strings (l : list (list N)) :
  new_Set (map JStr l) = map JStr (first_occurrences [] l).
Proof. exact (set_add_strings l [] [] (fun x => iff_refl _)). Qed.

Lemma array_join_strings (sep : list N) (l : list (list N)) :
  array_join sep (map JStr l) = Ok (join_strings sep l).
Proof.
  unfold array_join.
  assert (res_mapM join_element (map JStr l) = Ok l) as ->; [|reflexivity].
  induction l as [|s l IH]; cbn; [reflexivity|]. now rewrite IH.
Qed.

Lemma join_strings_nonempty (sep : list N) (l : list (list N)) :
  Forall (fun s => s <> []) l -> l <> [] -> is_empty (join_strings sep l) = false.
Proof.
  intros Hall Hl. destruct l as [|s l]; [contradiction|].
  apply Forall_cons in Hall as [Hs _].
  destruct l; cbn; destruct s; (contradiction || reflexivity).
Qed.

Lemma first_occurrences_elem (x : list N) (l seen : list (list N)) :
  x ∈ first_occurrences seen l <-> x ∈ l /\ x ∉ seen.
Proof.
  revert seen. induction l as [|y l IH]; intros seen; cbn.
  - rewrite !elem_of_nil. tauto.
  - case_bool_decide as Hy.
    + rewrite IH, elem_of_cons. split; [tauto|].
      intros [[->|Hx] Hseen]; [contradiction | tauto].
    + rewrite !elem_of_cons, IH, elem_of_cons.
      destruct (decide (x = y)) as [->|Hxy]; tauto.
Qed.

Lemma first_occurrences_NoDup (l seen : list (list N)) :
  NoDup (first_occurrences seen l).
Proof.
  revert seen. induction l as [|y l IH]; intros seen; cbn.
  - constructor.
  - case_bool_decide; [apply IH|].
    constructor; [|apply IH].
    rewrite first_occurrences_elem, elem_of_cons. tauto.
Qed.

Lemma nonempty_labels_elem (x : list N) (labels : list (option (list N))) :
  x ∈ nonempty_labels labels <-> x <> [] /\ Some x ∈ labels.
Proof.
  induction labels as [|lab labels IH]; cbn.
  - rewrite !elem_of_nil. tauto.
  - rewrite elem_of_app, IH, elem_of_cons.
    destruct lab as [[|c s]|].
    + rewrite elem_of_nil. split; [tauto|].
      intros [Hx [E|Hin]]; [|tauto]. injection E as ->. contradiction.
    + rewrite list_elem_of_singleton. split.
      * intros [->|]; [|tauto]. split; [discriminate | now left].
      * intros [Hx [E|Hin]]; [left; congruence | tauto].
    + rewrite elem_of_nil. split; [tauto|].
      intros [Hx [E|Hin]]; [discriminate | tauto].
Qed.

Lemma distinct_labels_elem (x : list N) (labels : list (option (list N))) :
  x ∈ distinct_labels labels <-> x <> [] /\ Some x ∈ labels.
Proof.
  unfold distinct_labels. rewrite first_occurrences_elem, nonempty_labels_elem.
  rewrite elem_of_nil. tauto.
Qed.

Lemma gathered_sources_text_records (o : JsVal) (items : list JsVal)
    (labels : list (option (list N))) :
  get o (js "sources_gathered") = Ok (JArr items) ->
  Forall2 source_record items labels ->
  gathered_sources_text o
  = Ok (js "Gathered " ++ nat_to_js (length items) ++ js " sources. Related to: "
          ++ related_to labels ++ js ".").
Proof.
  intros Hsg Hrec. unfold gathered_sources_text. rewrite Hsg. run_monad.
  destruct (labels_of_records _ _ Hrec) as (vals & -> & ->).
  rewrite new_Set_strings. fold (distinct_labels labels).
  change (@take JsVal) with (@firstn JsVal). rewrite firstn_map.
  rewrite array_join_strings. cbn. unfold related_to.
  change (@take (list N)) with (@firstn (list N)).
  destruct (firstn 3 (distinct_labels labels)) as [|s picked] eqn:Epicked.
  - reflexivity.
  - rewrite join_strings_nonempty; [reflexivity | | discriminate].
    rewrite <- Epicked. apply Forall_forall. intros x Hx.
    apply (subseteq_take 3) in Hx.
    now apply distinct_labels_elem in Hx.
Qed.

(** ** Effects of the classifier *)

Ltac branches :=
  repeat (cbn;
    match goal with
    | |- context [match ?r with Ok _ => _ | Throw => _ end] =>
        lazymatch r with
        | Ok _ => fail
        | Throw => fail
        | _ => destruct r eqn:?
        end
    | |- context [if ?b then _ else _] => destruct b eqn:?
    end).

(** The traced block either issues no effect at all, or it has recognised the
    start of [finalize_answer]. *)
Lemma traced_path_effects (eventType eventName eventData : JsVal) :
  emitted (traced_path eventType eventName eventData) = []
  \/ traced_path eventType eventName eventData
     = Run [SetFinalizeFlag true] (Ok (Some finalizing)).
Proof.
  unfold traced_path. run_monad. branches; auto.
Qed.

Lemma fallback_path_effects (event : JsVal) :
  emitted (fallback_path event) = []
  \/ fallback_path event = Run [SetFinalizeFlag true] (Ok (Some finalizing)).
Proof.
  unfold fallback_path. run_monad. branches; auto.
Qed.

Lemma traced_form_effects (event : JsVal) :
  emitted (traced_form event) = []
  \/ traced_form event = Run [SetFinalizeFlag true] (Ok (Some finalizing)).
Proof.
  unfold traced_form. run_monad.
  destruct (event_type event) as [t|]; cbn; [|now left].
  destruct (get event (js "name")) as [n|]; cbn; [|now left].
  destruct (get event (js "data")) as [d|]; cbn; [|now left].
  destruct (traced_path_effects t n d) as [H|H]; rewrite H.
  - now left.
  - now right.
Qed.

Lemma classify_effects (event : JsVal) :
  emitted (classify event) = []
  \/ classify event = Run [SetFinalizeFlag true] (Ok (Some finalizing)).
Proof.
  unfold classify. run_monad.
  destruct (traced_form_effects event) as [H|H]; rewrite H; [|now right].
  destruct (outcome (traced_form event)) as [[a|]|]; cbn; auto.
  destruct (fallback_path_effects event) as [H'|H']; rewrite H'; [|now right].
  now left.
Qed.

(** ** The archive effect *)

Lemma last_message_nonempty (msgs : list Message) (m : Message) :
  last_message msgs = Some m -> (0 <? length msgs)%nat = true.
Proof. destruct msgs; [discriminate | reflexivity]. Qed.

Lemma known_id_some (m : Message) (key : list N) :
  id m = Some key -> key <> [] -> known_id m = Some key.
Proof. unfold known_id. intros -> Hkey. now destruct key. Qed.

(** Outside its outer guard the archive effect does nothing: the flag is
    not set, the stream is still loading, or there is no message yet. *)
Lemma archiveEffect_idle (thread : Thread) (st : AppState) :
  hasFinalizeEventOccurred st = false \/ isLoading thread = true
    \/ messages thread = [] ->
  archiveEffect thread st = [] /\ reconcile thread st = st.
Proof.
  intros Hidle.
  assert (archiveEffect thread st = []) as Hnil.
  { unfold archiveEffect. destruct Hidle as [-> | [-> | ->]];
      [reflexivity | now rewrite andb_false_r | now rewrite andb_false_r]. }
  split; [exact Hnil|]. unfold reconcile. now rewrite Hnil.
Qed.

Section OuterGuard.
Variables (thread : Thread) (st : AppState) (lastMessage : Message).
Hypothesis Hflag : hasFinalizeEventOccurred st = true.
Hypothesis Hload : isLoading thread = false.
Hypothesis Hlast : last_message (messages thread) = Some lastMessage.

(** The effects of the archive effect when its outer guard holds. *)
Lemma archiveEffect_guarded :
  archiveEffect thread st
  = (if str_eqb (type lastMessage) (js "ai") then
       match known_id lastMessage with
       | Some key => [PutHistory key (processedEventsTimeline st)]
       | None => []
       end
     else []) ++ [SetFinalizeFlag false].
Proof.
  unfold archiveEffect.
  now rewrite Hflag, Hload, (last_message_nonempty _ _ Hlast), Hlast.
Qed.

(** With an agent message that has an id in last place, the effects are the
    write to the History Store and the reset of the flag, in that order. *)
Lemma archiveEffect_archives (key : list N) :
  type lastMessage = js "ai" -> id lastMessage = Some key -> key <> [] ->
  archiveEffect thread st
  = [PutHistory key (processedEventsTimeline st); SetFinalizeFlag false].
Proof.
  intros Htype Hid Hkey. rewrite archiveEffect_guarded.
  now rewrite Htype, str_eqb_refl, (known_id_some _ _ Hid Hkey).
Qed.
End OuterGuard.

(** C1, as the code has it: when the terminal flag is set, loading is over
    and the last message is an agent message with a known id, the archive
    effect stores the Live Timeline in the History Store under that id and
    clears the terminal flag; the Live Timeline itself is left as it was (it
    is emptied by the next submission, not by the archive). *)
Theorem archive_copies_timeline (thread : Thread) (st : AppState)
    (lastMessage : Message) (key : list N) :
  hasFinalizeEventOccurred st = true ->
  isLoading thread = false ->
  last_message (messages thread) = Some lastMessage ->
  type lastMessage = js "ai" ->
  id lastMessage = Some key -> key <> [] ->
  reconcile thread st
  = {| processedEventsTimeline := processedEventsTimeline st;
       historicalActivities :=
         <[key := processedEventsTimeline st]> (historicalActivities st);
       hasFinalizeEventOccurred := false;
       submitted := submitted st |}
  /\ historicalActivities (reconcile thread st) !! key
     = Some (processedEventsTimeline st).
Proof.
  intros Hflag Hload Hlast Htype Hid Hkey.
  assert (reconcile thread st
          = {| processedEventsTimeline := processedEventsTimeline st;
               historicalActivities :=
                 <[key := processedEventsTimeline st]> (historicalActivities st);
               hasFinalizeEventOccurred := false;
               submitted := submitted st |}) as Hrec.
  { unfold reconcile.
    now rewrite (archiveEffect_archives _ _ _ Hflag Hload Hlast key Htype Hid Hkey). }
  split; [exact Hrec|]. rewrite Hrec. cbn. apply lookup_insert_eq.
Qed.

Lemma archive_copies_timeline_witness :
  reconcile thread_answered state_after_finalize
  = {| processedEventsTimeline := [activity_A; activity_B];
       historicalActivities := <[js "m1" := [activity_A; activity_B]]> ∅;
       hasFinalizeEventOccurred := false;
       submitted := [] |}
  /\ historicalActivities (reconcile thread_answered state_after_finalize) !! js "m1"
     = Some [activity_A; activity_B].
Proof.
  apply (archive_copies_timeline thread_answered state_after_finalize
           ai_message_m1 (js "m1")); try reflexivity.
  discriminate.
Defined.

(** C1 as stated fails: after a successful archive of the timeline [A, B]
    the Live Timeline is not empty. *)
Lemma archive_does_not_clear_timeline :
  hasFinalizeEventOccurred state_after_finalize = true
  /\ isLoading thread_answered = false
  /\ last_message (messages thread_answered) = Some ai_message_m1
  /\ ~ (historicalActivities (reconcile thread_answered state_after_finalize) !! js "m1"
          = Some [activity_A; activity_B]
        /\ processedEventsTimeline (reconcile thread_answered state_after_finalize) = []
        /\ hasFinalizeEventOccurred (reconcile thread_answered state_after_finalize)
           = false).
Proof.
  repeat split. intros (_ & Hempty & _).
  vm_compute in Hempty. discriminate Hempty.
Qed.

(** C2, as the code has it: when the terminal flag is set, loading is over
    and the last message is not an agent message or has no known id, the
    archive effect writes nothing to the History Store and leaves the Live
    Timeline alone, and it clears the terminal flag. *)
Theorem archive_skipped_clears_flag (thread : Thread) (st : AppState)
    (lastMessage : Message) :
  hasFinalizeEventOccurred st = true ->
  isLoading thread = false ->
  last_message (messages thread) = Some lastMessage ->
  type lastMessage <> js "ai" \/ known_id lastMessage = None ->
  reconcile thread st
  = {| processedEventsTimeline := processedEventsTimeline st;
       historicalActivities := historicalActivities st;
       hasFinalizeEventOccurred := false;
       submitted := submitted st |}.
Proof.
  intros Hflag Hload Hlast Hbad.
  unfold reconcile. rewrite (archiveEffect_guarded _ _ _ Hflag Hload Hlast).
  destruct Hbad as [Htype | Hid].
  - apply str_eqb_neq in Htype. now rewrite Htype.
  - rewrite Hid. now destruct (str_eqb _ _).
Qed.

Lemma archive_skipped_clears_flag_witness :
  reconcile thread_unanswered state_after_finalize
  = {| processedEventsTimeline := [activity_A; activity_B];
       historicalActivities := ∅;
       hasFinalizeEventOccurred := false;
       submitted := [] |}.
Proof.
  apply (archive_skipped_clears_flag thread_unanswered state_after_finalize
           human_message_u1); try reflexivity.
  left. discriminate.
Defined.

(** C2 as stated fails: with a user message last, nothing is written but the
    terminal flag does not remain true. *)
Lemma archive_skipped_flag_not_kept :
  hasFinalizeEventOccurred state_after_finalize = true
  /\ isLoading thread_unanswered = false
  /\ last_message (messages thread_unanswered) = Some human_message_u1
  /\ type human_message_u1 <> js "ai"
  /\ ~ (historicalActivities (reconcile thread_unanswered state_after_finalize)
          = historicalActivities state_after_finalize
        /\ hasFinalizeEventOccurred (reconcile thread_unanswered state_after_finalize)
           = true).
Proof.
  repeat split; [discriminate|]. intros (_ & Hflag).
  vm_compute in Hflag. discriminate Hflag.
Qed.

(** ** Recognising the shape of a concrete event *)

Lemma flattened_entry_check (props : list (list N * JsVal)) (stage : list N) :
  traced_marker (JObj props) = false ->
  truthy (lookup_prop stage props) = true ->
  forallb (fun k => str_eqb k stage || negb (truthy (lookup_prop k props)))
    stage_names = true ->
  flattened_entry (JObj props) stage (lookup_prop stage props).
Proof.
  intros Hm Ht Hall. exists props. repeat split; auto.
  intros k Hk Hne. rewrite forallb_forall in Hall.
  apply list_elem_of_In, Hall in Hk. apply orb_true_iff in Hk as [Hk|Hk].
  - now apply str_eqb_eq in Hk.
  - now apply negb_true_iff in Hk.
Qed.

Lemma traced_output_check (props : list (list N * JsVal)) (stage : list N)
    (output : JsVal) :
  traced_marker (JObj props) = true ->
  lookup_prop (js "name") props = JStr stage ->
  get (lookup_prop (js "data") props) (js "output") = Ok output ->
  truthy output = true ->
  traced_output (JObj props) stage output.
Proof. intros Hm Hn Ho Ht. exists props, (lookup_prop (js "data") props). auto 10. Qed.

Lemma reflection_flat_event_shape :
  end_signal reflection_flat_event (js "reflection") reflection_payload.
Proof. right. now apply flattened_entry_check. Qed.

Lemma reflection_traced_event_shape :
  end_signal reflection_traced_event (js "reflection") reflection_payload.
Proof. left. now apply traced_output_check. Qed.

Lemma web_research_flat_event_shape :
  end_signal web_research_flat_event (js "web_research")
    (obj [("sources_gathered", JArr sample_sources)]%string).
Proof. right. now apply flattened_entry_check. Qed.

Lemma web_research_traced_event_shape :
  end_signal web_research_traced_event (js "web_research")
    (obj [("sources_gathered", JArr sample_sources)]%string).
Proof. left. now apply traced_output_check. Qed.

Lemma generate_query_bare_event_shape :
  flattened_entry generate_query_bare_event (js "generate_query") (obj []).
Proof. now apply flattened_entry_check. Qed.

Lemma sample_sources_records :
  Forall2 source_record sample_sources [Some (js "a"); Some (js "a"); Some (js "b"); None].
Proof.
  repeat constructor; first [ now apply source_labelled | now apply source_null ].
Qed.

(** ** Claims about the classifier *)

(** C3, as the code has it: for a reflection end signal (either shape) whose
    sufficiency flag is false and whose follow-up query list is empty or
    absent, [classify] returns the Reflection Activity whose data is
    "Need more information, searching for additional info": it ends in
    "for additional info", and the template has no closing period. *)
Theorem reflection_without_queries (event o s queries : JsVal) :
  end_signal event (js "reflection") o ->
  get o (js "is_sufficient") = Ok s -> truthy s = false ->
  get o (js "follow_up_queries") = Ok queries ->
  nullish queries = true \/ queries = JArr [] ->
  classify event
  = Run [] (Ok (Some {| title := js "Reflection";
                        data := js "Need more information, searching for additional info" |}))
  /\ js "for additional info"
       `suffix_of` js "Need more information, searching for additional info".
Proof.
  intros Hsig Hs Hfalse Hq Hempty. split.
  - rewrite (end_signal_reflection _ _ Hsig). unfold reflection_result.
    now rewrite (reflection_text_no_queries _ _ _ Hs Hfalse Hq Hempty).
  - now exists (js "Need more information, searching ").
Qed.

Lemma reflection_without_queries_witness :
  classify reflection_traced_event
  = Run [] (Ok (Some {| title := js "Reflection";
                        data := js "Need more information, searching for additional info" |})).
Proof.
  apply (reflection_without_queries reflection_traced_event reflection_payload
           (JBool false) (JArr [])).
  - exact reflection_traced_event_shape.
  - reflexivity.
  - reflexivity.
  - reflexivity.
  - right. reflexivity.
Defined.

(** C3 as stated fails: on the flattened reflection event with
    [is_sufficient = false] and [follow_up_queries = []] the returned data does
    not end in "for additional info." *)
Lemma reflection_text_has_no_period :
  end_signal reflection_flat_event (js "reflection") reflection_payload
  /\ get reflection_payload (js "is_sufficient") = Ok (JBool false)
  /\ get reflection_payload (js "follow_up_queries") = Ok (JArr [])
  /\ ~ (exists a, outcome (classify reflection_flat_event) = Ok (Some a)
                  /\ js "for additional info." `suffix_of` data a).
Proof.
  split; [exact reflection_flat_event_shape|]. repeat split.
  intros (a & Ha & k & Hk). vm_compute in Ha. injection Ha as <-.
  apply (f_equal (@rev N)) in Hk. rewrite rev_app_distr in Hk.
  vm_compute in Hk. discriminate Hk.
Qed.

(** C4: for a web research end signal (either shape) whose gathered sources
    are records with a string, null or absent label, [classify] returns
    "Gathered N sources. Related to: L." where N counts every source record
    and L joins with ", " the first three distinct non-empty labels, or is
    "N/A" when there is none. *)
Theorem web_research_summary (event o : JsVal) (items : list JsVal)
    (labels : list (option (list N))) :
  end_signal event (js "web_research") o ->
  get o (js "sources_gathered") = Ok (JArr items) ->
  Forall2 source_record items labels ->
  let picked := take 3 (distinct_labels labels) in
  classify event
  = Run [] (Ok (Some
      {| title := js "Web Research";
         data := js "Gathered " ++ nat_to_js (length items)
                   ++ js " sources. Related to: "
                   ++ match picked with
                      | [] => js "N/A"
                      | _ => join_strings (js ", ") picked
                      end
                   ++ js "." |}))
  /\ NoDup picked
  /\ length picked <= 3
  /\ (forall x, x ∈ picked -> x <> [] /\ Some x ∈ labels)
  /\ (picked = [] -> forall x, Some x ∈ labels -> x = []).
Proof.
  intros Hsig Hsg Hrec picked. split; [|split; [|split; [|split]]].
  - rewrite (end_signal_web_research _ _ Hsig). unfold web_research_result.
    rewrite (gathered_sources_text_records _ _ _ Hsg Hrec).
    unfold related_to. fold picked. now destruct picked.
  - apply (sublist_NoDup _ (distinct_labels labels));
      [apply first_occurrences_NoDup | apply sublist_take].
  - subst picked. rewrite length_take. lia.
  - intros x Hx. apply (subseteq_take 3) in Hx. now apply distinct_labels_elem.
  - intros Hnone x Hx. destruct x as [|c x]; [reflexivity|].
    assert ((c :: x) ∈ distinct_labels labels) as Hin.
    { apply distinct_labels_elem. split; [discriminate | assumption]. }
    subst picked. destruct (distinct_labels labels); [|discriminate Hnone].
    now apply elem_of_nil in Hin.
Qed.

Lemma web_research_summary_witness :
  classify web_research_traced_event
  = Run [] (Ok (Some {| title := js "Web Research";
                        data := js "Gathered 4 sources. Related to: a, b." |})).
Proof.
  apply (web_research_summary web_research_traced_event
           (obj [("sources_gathered", JArr sample_sources)]%string) sample_sources
           [Some (js "a"); Some (js "a"); Some (js "b"); None]).
  - exact web_research_traced_event_shape.
  - reflexivity.
  - exact sample_sources_records.
Defined.

(** C10: a flattened event whose [generate_query] entry has an empty or
    absent [query_list] is classified as "Generating Search Queries" with the
    placeholder "Creating queries...", which is not the start text of the
    traced form, "Creating search queries...". *)
Theorem flattened_generate_query_placeholder (event entry query_list : JsVal) :
  flattened_entry event (js "generate_query") entry ->
  get entry (js "query_list") = Ok query_list ->
  nullish query_list = true \/ query_list = JArr [] ->
  classify event
  = Run [] (Ok (Some {| title := js "Generating Search Queries";
                        data := js "Creating queries..." |}))
  /\ title generating_start = js "Generating Search Queries"
  /\ data generating_start = js "Creating search queries..."
  /\ js "Creating queries..." <> data generating_start.
Proof.
  intros Hflat Hq Hempty. split; [|split; [reflexivity | split; [reflexivity | discriminate]]].
  rewrite (flattened_generate_query _ _ Hflat), Hq. run_monad. unfold join_or.
  destruct Hempty as [Hn | ->]; [now rewrite Hn | reflexivity].
Qed.

Lemma flattened_generate_query_placeholder_witness :
  classify generate_query_bare_event
  = Run [] (Ok (Some {| title := js "Generating Search Queries";
                        data := js "Creating queries..." |})).
Proof.
  apply (flattened_generate_query_placeholder generate_query_bare_event (obj [])
           JUndefined).
  - exact generate_query_bare_event_shape.
  - reflexivity.
  - left. reflexivity.
Defined.

(** C5: an event object that shows no chain marker together with a stage
    name, and holds nothing under any of the four stage keys, yields no
    Activity; the handler returns without throwing and without any effect, so
    the state (Live Timeline included) is unchanged. *)
Theorem unrecognised_event_dropped (props : list (list N * JsVal)) (st : AppState) :
  traced_marker (JObj props) && names_stage (JObj props) = false ->
  (forall k, k ∈ stage_names -> truthy (lookup_prop k props) = false) ->
  classify (JObj props) = Run [] (Ok None)
  /\ onUpdateEvent (JObj props) = Run [] (Ok tt)
  /\ deliver st (JObj props) = st.
Proof.
  intros Hshape Hkeys.
  assert (classify (JObj props) = Run [] (Ok None)) as Hnone.
  { destruct (event_type_obj props) as [t Et].
    unfold classify. rewrite (traced_form_obj _ _ Et).
    unfold traced_marker, names_stage in Hshape. rewrite Et in Hshape. cbn in Hshape.
    assert (traced_path t (lookup_prop (js "name") props) (lookup_prop (js "data") props)
            = Run [] (Ok None)) as ->.
    { unfold traced_path.
      destruct (strict_eq_str t on_chain_end || strict_eq_str t on_chain_start);
        [|reflexivity].
      cbn in Hshape. rewrite !orb_false_iff in Hshape.
      destruct Hshape as (-> & -> & -> & -> & _). reflexivity. }
    run_monad. unfold fallback_path. run_monad.
    other_stage Hkeys (js "generate_query"). other_stage Hkeys (js "web_research").
    other_stage Hkeys (js "reflection"). other_stage Hkeys (js "finalize_answer").
    reflexivity. }
  repeat split; [exact Hnone | |]; unfold deliver, onUpdateEvent; now rewrite Hnone.
Qed.

Lemma stage_keys_check (props : list (list N * JsVal)) :
  forallb (fun k => negb (truthy (lookup_prop k props))) stage_names = true ->
  forall k, k ∈ stage_names -> truthy (lookup_prop k props) = false.
Proof.
  intros Hall k Hk. rewrite forallb_forall in Hall.
  apply list_elem_of_In, Hall in Hk. now apply negb_true_iff in Hk.
Qed.

Lemma unrecognised_event_dropped_witness :
  (classify (JObj unknown_traced_props) = Run [] (Ok None)
   /\ onUpdateEvent (JObj unknown_traced_props) = Run [] (Ok tt)
   /\ deliver state_after_finalize (JObj unknown_traced_props) = state_after_finalize)
  /\ (classify (JObj unknown_flat_props) = Run [] (Ok None)
      /\ onUpdateEvent (JObj unknown_flat_props) = Run [] (Ok tt)
      /\ deliver state_after_finalize (JObj unknown_flat_props) = state_after_finalize).
Proof.
  split.
  - apply (unrecognised_event_dropped unknown_traced_props state_after_finalize).
    + reflexivity.
    + apply stage_keys_check. reflexivity.
  - apply (unrecognised_event_dropped unknown_flat_props state_after_finalize).
    + reflexivity.
    + apply stage_keys_check. reflexivity.
Defined.

(** ** The terminal flag *)

Lemma exec_all_nil (st : AppState) : exec_all [] st = st.
Proof. reflexivity. Qed.

(** The handler's effects: those of the classifier, then the append. *)
Lemma onUpdateEvent_emitted (event : JsVal) :
  emitted (onUpdateEvent event)
  = emitted (classify event)
      ++ match outcome (classify event) with
         | Ok (Some a) => [AppendTimeline a]
         | _ => []
         end.
Proof.
  unfold onUpdateEvent. run_monad.
  destruct (outcome (classify event)) as [[a|]|]; cbn; now rewrite ?app_nil_r.
Qed.

(** Delivering an event changes the flag only when the classifier returned
    the Finalizing Answer activity, and then sets it. *)
Lemma deliver_flag (st : AppState) (event : JsVal) :
  (outcome (classify event) = Ok (Some finalizing)
   /\ hasFinalizeEventOccurred (deliver st event) = true)
  \/ (emitted (classify event) = []
      /\ hasFinalizeEventOccurred (deliver st event) = hasFinalizeEventOccurred st).
Proof.
  unfold deliver. rewrite onUpdateEvent_emitted.
  destruct (classify_effects event) as [H|H]; rewrite H.
  - right. split; [reflexivity|].
    destruct (outcome (classify event)) as [[a|]|]; reflexivity.
  - left. split; reflexivity.
Qed.

(** Delivering an event appends exactly what the classifier returned. *)
Lemma deliver_timeline (st : AppState) (event : JsVal) :
  processedEventsTimeline (deliver st event)
  = processedEventsTimeline st
      ++ match outcome (classify event) with
         | Ok (Some a) => [a]
         | _ => []
         end.
Proof.
  unfold deliver. rewrite onUpdateEvent_emitted.
  destruct (classify_effects event) as [H|H]; rewrite H; cbn.
  - destruct (outcome (classify event)) as [[a|]|]; cbn; now rewrite ?app_nil_r.
  - reflexivity.
Qed.

(** C6: a traced [finalize_answer] start event is recognised and sets the
    terminal flag; an event recognised as one of the other three stages
    (Generating Search Queries, Web Research, Reflection), in either shape,
    issues no flag effect and leaves the terminal flag as it was. *)
Theorem terminal_flag_only_on_finalize (event : JsVal) (st : AppState) :
  (forall props,
      event = JObj props ->
      event_type event = Ok (JStr on_chain_start) ->
      lookup_prop (js "name") props = JStr (js "finalize_answer") ->
      classify event = Run [SetFinalizeFlag true] (Ok (Some finalizing))
      /\ hasFinalizeEventOccurred (deliver st event) = true)
  /\ (forall a,
        outcome (classify event) = Ok (Some a) ->
        title a ∈ [js "Generating Search Queries"; js "Web Research"; js "Reflection"] ->
        emitted (classify event) = []
        /\ hasFinalizeEventOccurred (deliver st event) = hasFinalizeEventOccurred st).
Proof.
  split.
  - intros props -> Et Hn.
    assert (classify (JObj props) = Run [SetFinalizeFlag true] (Ok (Some finalizing)))
      as Hc.
    { unfold classify. rewrite (traced_form_obj _ _ Et), Hn.
      unfold traced_path. literal_tests. reflexivity. }
    split; [exact Hc|].
    unfold deliver. rewrite onUpdateEvent_emitted, Hc. reflexivity.
  - intros a Ha Htitle.
    destruct (deliver_flag st event) as [[Hfin _] | Hsame]; [|exact Hsame].
    rewrite Ha in Hfin. injection Hfin as ->.
    exfalso. revert Htitle. rewrite !elem_of_cons, elem_of_nil.
    intros [E|[E|[E|[]]]]; vm_compute in E; discriminate E.
Qed.

Lemma terminal_flag_only_on_finalize_witness :
  (classify finalize_start_event = Run [SetFinalizeFlag true] (Ok (Some finalizing))
   /\ hasFinalizeEventOccurred
        (deliver (exec state_after_finalize (SetFinalizeFlag false)) finalize_start_event)
      = true)
  /\ (emitted (classify web_research_flat_event) = []
      /\ hasFinalizeEventOccurred
           (deliver (exec state_after_finalize (SetFinalizeFlag false))
              web_research_flat_event)
         = false).
Proof.
  split.
  - apply (proj1 (terminal_flag_only_on_finalize finalize_start_event
                    (exec state_after_finalize (SetFinalizeFlag false)))
             [(js "event", str "on_chain_start"); (js "name", str "finalize_answer")]);
      reflexivity.
  - apply (proj2 (terminal_flag_only_on_finalize web_research_flat_event
                    (exec state_after_finalize (SetFinalizeFlag false)))
             {| title := js "Web Research";
                data := js "Gathered 4 sources. Related to: a, b." |}).
    + reflexivity.
    + apply list_elem_of_In. cbn. tauto.
Defined.

(** ** Precedence of the traced form *)

(** C7: the fallback for the flattened form runs only when the traced form
    ended without an Activity; when the traced form yields an Activity (or
    throws), that is the classifier's result with the traced form's effects
    alone, also for an event that the fallback on its own would match. *)
Theorem traced_form_precedence (event : JsVal) :
  (forall a, outcome (traced_form event) = Ok (Some a) ->
             classify event = traced_form event)
  /\ (outcome (traced_form event) = Throw -> classify event = traced_form event)
  /\ (outcome (traced_form event) = Ok None -> classify event = fallback_path event)
  /\ (forall a b, outcome (traced_form event) = Ok (Some a) ->
                  outcome (fallback_path event) = Ok (Some b) ->
                  outcome (classify event) = Ok (Some a)).
Proof.
  assert (forall a, outcome (traced_form event) = Ok (Some a) ->
                    classify event = traced_form event) as Hsome.
  { intros a Ha. unfold classify. run_monad. rewrite Ha. cbn.
    destruct (traced_form event) as [cmds r]. cbn in *. now rewrite app_nil_r, Ha. }
  split; [exact Hsome|]. split; [|split].
  - intros Ht. unfold classify. run_monad. rewrite Ht.
    destruct (traced_form event) as [cmds r]. cbn in *. now rewrite Ht.
  - intros Hnone. unfold classify. run_monad. rewrite Hnone.
    destruct (traced_form_effects event) as [H|H].
    + rewrite H. now destruct (fallback_path event).
    + rewrite H in Hnone. discriminate Hnone.
  - intros a b Ha _. now rewrite (Hsome a Ha).
Qed.

Lemma traced_form_precedence_witness :
  outcome (fallback_path both_shapes_event)
  = Ok (Some {| title := js "Reflection";
                data := js "Search successful, generating final answer." |})
  /\ classify both_shapes_event = Run [] (Ok (Some generating_start)).
Proof.
  split; [reflexivity|].
  rewrite (proj1 (traced_form_precedence both_shapes_event) generating_start);
    reflexivity.
Defined.

(** ** The Live Timeline and the History Store *)

Lemma deliver_all_timeline (events : list JsVal) (st : AppState) :
  processedEventsTimeline (deliver_all events st)
  = processedEventsTimeline st ++ classified events.
Proof.
  revert st. induction events as [|e events IH]; intros st; cbn.
  - now rewrite app_nil_r.
  - unfold deliver_all in IH. rewrite IH, deliver_timeline, <- app_assoc. reflexivity.
Qed.

Lemma reconcile_archives (thread : Thread) (st : AppState) (lastMessage : Message)
    (key : list N) :
  hasFinalizeEventOccurred st = true -> isLoading thread = false ->
  last_message (messages thread) = Some lastMessage ->
  type lastMessage = js "ai" -> id lastMessage = Some key -> key <> [] ->
  historicalActivities (reconcile thread st)
  = <[key := processedEventsTimeline st]> (historicalActivities st).
Proof.
  intros Hflag Hload Hlast Htype Hid Hkey.
  unfold reconcile.
  now rewrite (archiveEffect_archives _ _ _ Hflag Hload Hlast key Htype Hid Hkey).
Qed.

(** C9: the events delivered during a run append their Activities to the
    Live Timeline in arrival order, one entry per classified event and
    without removing repetitions, and when the run is archived the History
    Store holds that very sequence under the message id. *)
Theorem timeline_round_trip (events : list JsVal) (thread : Thread) (st : AppState)
    (lastMessage : Message) (key : list N) :
  hasFinalizeEventOccurred (deliver_all events st) = true ->
  isLoading thread = false ->
  last_message (messages thread) = Some lastMessage ->
  type lastMessage = js "ai" ->
  id lastMessage = Some key -> key <> [] ->
  processedEventsTimeline (deliver_all events st)
  = processedEventsTimeline st ++ classified events
  /\ (forall e a, outcome (classify e) = Ok (Some a) ->
        processedEventsTimeline (deliver_all [e; e] (deliver_all events st))
        = (processedEventsTimeline st ++ classified events) ++ [a; a])
  /\ historicalActivities (reconcile thread (deliver_all events st)) !! key
     = Some (processedEventsTimeline st ++ classified events).
Proof.
  intros Hflag Hload Hlast Htype Hid Hkey. split; [|split].
  - apply deliver_all_timeline.
  - intros e a Ha. rewrite !deliver_all_timeline. cbn. now rewrite Ha.
  - rewrite (reconcile_archives _ _ _ _ Hflag Hload Hlast Htype Hid Hkey).
    rewrite lookup_insert_eq. now rewrite deliver_all_timeline.
Qed.

Lemma timeline_round_trip_witness :
  processedEventsTimeline (deliver_all sample_run initial_state)
  = [creating_queries; creating_queries; finalizing]
  /\ historicalActivities
       (reconcile thread_answered (deliver_all sample_run initial_state)) !! js "m1"
     = Some [creating_queries; creating_queries; finalizing].
Proof.
  split;
    apply (timeline_round_trip sample_run thread_answered initial_state
             ai_message_m1 (js "m1"));
    try reflexivity; discriminate.
Defined.

(** ** [handleSubmit] *)

Lemma trim_start_nil_iff (s : list N) :
  trim_start s = [] <-> forallb is_js_whitespace s = true.
Proof.
  induction s as [|c s IH]; cbn [trim_start forallb]; [tauto|].
  destruct (is_js_whitespace c); cbn [andb]; [exact IH|]. split; discriminate.
Qed.

Lemma trim_start_suffix (s : list N) :
  exists ws, s = ws ++ trim_start s /\ forallb is_js_whitespace ws = true.
Proof.
  induction s as [|c s (ws & Hs & Hws)]; cbn [trim_start].
  - now exists [].
  - destruct (is_js_whitespace c) eqn:Hc.
    + exists (c :: ws). cbn [forallb app]. rewrite Hc, Hws.
      split; [now f_equal | reflexivity].
    + now exists [].
Qed.

(** The text is empty after trimming exactly when it is all white space. *)
Lemma trim_nil_iff (s : list N) :
  trim s = [] <-> forallb is_js_whitespace s = true.
Proof.
  unfold trim. split.
  - intros H. apply (f_equal (@rev N)) in H. rewrite rev_involutive in H.
    change (rev []) with (@nil N) in H.
    apply trim_start_nil_iff in H. rewrite forallb_forall in H.
    destruct (trim_start_suffix s) as (ws & Hs & Hws).
    rewrite Hs, forallb_app, Hws. cbn [andb]. apply forallb_forall. intros c Hc.
    apply H. now apply in_rev in Hc.
  - intros H. apply trim_start_nil_iff in H. now rewrite H.
Qed.

Lemma uint_units_inj (d1 d2 : Decimal.uint) :
  uint_units d1 = uint_units d2 -> d1 = d2.
Proof.
  revert d2. induction d1 as [|d1 IH|d1 IH|d1 IH|d1 IH|d1 IH|d1 IH|d1 IH|d1 IH|d1 IH|d1 IH];
    intros [|d2|d2|d2|d2|d2|d2|d2|d2|d2|d2]; cbn [uint_units]; intros H;
    try reflexivity; try discriminate H;
    pose proof (f_equal head H) as Hd; pose proof (f_equal tail H) as Hr;
    cbn [head tail] in Hd, Hr;
    try (vm_compute in Hd; discriminate Hd);
    f_equal; now apply IH.
Qed.

Lemma uint_units_no_sign (d : Decimal.uint) (rest : list N) :
  uint_units d <> js "-" ++ rest.
Proof.
  destruct d; cbn [uint_units]; intros H; try discriminate H;
    pose proof (f_equal head H) as Hd; vm_compute in Hd; discriminate Hd.
Qed.

Lemma Z_to_js_inj (z1 z2 : Z) : Z_to_js z1 = Z_to_js z2 -> z1 = z2.
Proof.
  intros H. rewrite <- (DecimalZ.of_to z1), <- (DecimalZ.of_to z2). f_equal.
  unfold Z_to_js in H.
  destruct (Z.to_int z1) as [d1|d1], (Z.to_int z2) as [d2|d2].
  - f_equal. now apply uint_units_inj.
  - now apply uint_units_no_sign in H.
  - symmetry in H. now apply uint_units_no_sign in H.
  - f_equal. apply uint_units_inj. now apply app_inv_head in H.
Qed.

Lemma Z_to_js_nonempty (z : Z) : Z_to_js z <> [].
Proof.
  unfold Z_to_js. destruct z as [|p|p]; cbn [Z.to_int]; try discriminate.
  - intros H. assert (Pos.to_uint p = Nil) as E by (destruct (Pos.to_uint p); easy).
    pose proof (DecimalPos.Unsigned.of_to p) as Hp. rewrite E in Hp. discriminate Hp.
Qed.

(** C8, as the code has it: when the text is not empty after trimming,
    [handleSubmit] clears the Live Timeline, then clears the terminal flag,
    then calls the transport with the prior messages followed by one new
    human message and with a configurable object that copies the five
    settings of the configuration and has the thinking mode of the
    configuration, off when it is absent; just before the dispatch the
    timeline is empty and the flag false, whatever they were.  When the text
    is empty after trimming it does nothing.  The id of the new message is
    the decimal rendering of the current time: it is never empty and differs
    from the id made at any other clock reading, but it is not compared with
    the ids already in the list. *)
Theorem submit_resets_then_dispatches (thread : Thread) (now : Z) (text : list N)
    (config : AgentConfiguration) (st : AppState) :
  let newMessage := {| type := js "human"; content := text; id := Some (Z_to_js now) |} in
  let configurable :=
    {| cfg_query_generator_model := query_generator_model config;
       cfg_reflection_model := reflection_model config;
       cfg_answer_model := answer_model config;
       cfg_number_of_initial_queries := number_of_initial_queries config;
       cfg_max_research_loops := max_research_loops config;
       cfg_enable_thinking :=
         match enable_thinking config with
         | Some true => true
         | Some false | None => false
         end |} in
  (trim text <> [] ->
     handleSubmit thread now text config
     = [ClearTimeline; SetFinalizeFlag false;
        ThreadSubmit (messages thread ++ [newMessage]) configurable]
     /\ processedEventsTimeline (exec_all [ClearTimeline; SetFinalizeFlag false] st) = []
     /\ hasFinalizeEventOccurred (exec_all [ClearTimeline; SetFinalizeFlag false] st)
        = false
     /\ submit thread now text config st
        = {| processedEventsTimeline := [];
             historicalActivities := historicalActivities st;
             hasFinalizeEventOccurred := false;
             submitted :=
               submitted st ++ [(messages thread ++ [newMessage], configurable)] |})
  /\ (trim text = [] ->
        handleSubmit thread now text config = []
        /\ submit thread now text config st = st)
  /\ Z_to_js now <> []
  /\ (forall other, other <> now -> Z_to_js other <> Z_to_js now).
Proof.
  intros newMessage configurable.
  assert (configurable_of config = configurable) as Hcfg.
  { unfold configurable_of, configurable.
    destruct (enable_thinking config) as [[|]|]; reflexivity. }
  split; [|split; [|split]].
  - intros Htext.
    assert (handleSubmit thread now text config
            = [ClearTimeline; SetFinalizeFlag false;
               ThreadSubmit (messages thread ++ [newMessage]) configurable])
      as Hcmds.
    { unfold handleSubmit. rewrite Hcfg.
      destruct (trim text); [contradiction | reflexivity]. }
    repeat split; [exact Hcmds|]. unfold submit. now rewrite Hcmds.
  - intros Htext.
    assert (handleSubmit thread now text config = []) as Hcmds.
    { unfold handleSubmit. now rewrite Htext. }
    split; [exact Hcmds|]. unfold submit. now rewrite Hcmds.
  - apply Z_to_js_nonempty.
  - intros other Hother H. now apply Z_to_js_inj in H.
Qed.

Lemma submit_resets_then_dispatches_witness :
  submit thread_answered 1730000000000 (js " next question ") sample_config
    state_after_finalize
  = {| processedEventsTimeline := [];
       historicalActivities := ∅;
       hasFinalizeEventOccurred := false;
       submitted :=
         [([human_message_u1; ai_message_m1;
            {| type := js "human"; content := js " next question ";
               id := Some (js "1730000000000") |}],
           {| cfg_query_generator_model := js "gemini-2.0-flash";
              cfg_reflection_model := js "gemini-2.5-flash";
              cfg_answer_model := js "gemini-2.5-pro";
              cfg_number_of_initial_queries := 3;
              cfg_max_research_loops := 3;
              cfg_enable_thinking := false |})] |}
  /\ submit thread_answered 1730000000000 (js "   ") sample_config state_after_finalize
     = state_after_finalize.
Proof.
  split.
  - apply (proj1 (submit_resets_then_dispatches thread_answered 1730000000000
                    (js " next question ") sample_config state_after_finalize)).
    vm_compute. discriminate.
  - apply (proj1 (proj2 (submit_resets_then_dispatches thread_answered 1730000000000
                           (js "   ") sample_config state_after_finalize))).
    reflexivity.
Defined.

(** C8 as stated fails: the id of the new message is not fresh.  A
    submission at the clock reading of an earlier one dispatches a list in
    which the new message has the id of a message already there. *)
Lemma submitted_id_not_fresh :
  trim (js "again") <> []
  /\ handleSubmit thread_same_clock 1730000000000 (js "again") sample_config
     = [ClearTimeline; SetFinalizeFlag false;
        ThreadSubmit
          [human_message_at_clock;
           {| type := js "human"; content := js "again";
              id := Some (js "1730000000000") |}]
          {| cfg_query_generator_model := js "gemini-2.0-flash";
             cfg_reflection_model := js "gemini-2.5-flash";
             cfg_answer_model := js "gemini-2.5-pro";
             cfg_number_of_initial_queries := 3;
             cfg_max_research_loops := 3;
             cfg_enable_thinking := false |}]
  /\ ~ (forall m, m ∈ messages thread_same_clock ->
                  id m <> Some (Z_to_js 1730000000000)).
Proof.
  split; [vm_compute; discriminate|]. split; [reflexivity|].
  intros Hfresh. apply (Hfresh human_message_at_clock).
  - apply list_elem_of_here.
  - reflexivity.
Qed.

(** * Further properties of the code *)

(** ** The classifier on the remaining traced events *)

Lemma three_stages_cases (stage : list N) (P : Prop) :
  stage ∈ [js "generate_query"; js "web_research"; js "reflection"] ->
  (stage = js "generate_query" -> P) -> (stage = js "web_research" -> P) ->
  (stage = js "reflection" -> P) -> P.
Proof.
  rewrite !elem_of_cons, elem_of_nil. intros [E|[E|[E|[]]]]; auto.
Qed.

(** X1: a traced start event of generate_query, web_research or reflection
    that has data but no output is classified as the fixed start Activity of
    its stage, without any effect. *)
Theorem traced_start_shows_start_activity (props : list (list N * JsVal))
    (stage : list N) (eventData output : JsVal) (a : Activity) :
  event_type (JObj props) = Ok (JStr on_chain_start) ->
  lookup_prop (js "name") props = JStr stage ->
  stage ∈ [js "generate_query"; js "web_research"; js "reflection"] ->
  lookup_prop (js "data") props = eventData ->
  truthy eventData = true ->
  get eventData (js "output") = Ok output -> truthy output = false ->
  start_activity stage = Some a ->
  classify (JObj props) = Run [] (Ok (Some a)).
Proof.
  intros Et Hn Hstage Hd Htd Ho Hto Ha.
  unfold classify. rewrite (traced_form_obj _ _ Et), Hn, Hd.
  unfold traced_path, on_chain_start, on_chain_end. literal_tests. cbn [orb].
  apply (three_stages_cases _ _ Hstage); intros ->;
    vm_compute in Ha; injection Ha as <-;
    literal_tests; rewrite Htd; cbn [andb]; run_monad; rewrite Ho; cbn;
    rewrite ?Hto; cbn; rewrite ?Hto; reflexivity.
Qed.

Lemma traced_start_shows_start_activity_witness :
  classify (obj [("event", str "on_chain_start"); ("name", str "web_research");
                 ("data", obj [("input", obj [])])]%string)
  = Run [] (Ok (Some web_research_start)).
Proof.
  apply (traced_start_shows_start_activity
           [(js "event", str "on_chain_start"); (js "name", str "web_research");
            (js "data", obj [("input", obj [])]%string)]
           (js "web_research") (obj [("input", obj [])]%string) JUndefined);
    try reflexivity.
  apply list_elem_of_In. cbn. tauto.
Defined.

(** X2: a traced event that names a stage but has nothing to show is dropped
    when no stage key is present: an end event of finalize_answer, an end
    event without data or without output, and a start event of the three
    other stages without data.  Nothing is appended and the terminal flag is
    not touched. *)
Theorem traced_event_without_payload_dropped (props : list (list N * JsVal))
    (marker stage : list N) (st : AppState) :
  event_type (JObj props) = Ok (JStr marker) ->
  lookup_prop (js "name") props = JStr stage ->
  (marker = on_chain_end
   /\ (stage = js "finalize_answer"
       \/ (stage ∈ [js "generate_query"; js "web_research"; js "reflection"]
           /\ (truthy (lookup_prop (js "data") props) = false
               \/ exists output,
                    get (lookup_prop (js "data") props) (js "output") = Ok output
                    /\ truthy output = false))))
  \/ (marker = on_chain_start
      /\ stage ∈ [js "generate_query"; js "web_research"; js "reflection"]
      /\ truthy (lookup_prop (js "data") props) = false) ->
  (forall k, k ∈ stage_names -> truthy (lookup_prop k props) = false) ->
  classify (JObj props) = Run [] (Ok None) /\ deliver st (JObj props) = st.
Proof.
  intros Et Hn Hcase Hkeys.
  assert (classify (JObj props) = Run [] (Ok None)) as Hnone.
  { unfold classify. rewrite (traced_form_obj _ _ Et), Hn.
    assert (traced_path (JStr marker) (JStr stage) (lookup_prop (js "data") props)
            = Run [] (Ok None)) as ->.
    { unfold traced_path, on_chain_start, on_chain_end in *.
      destruct Hcase as [(-> & [-> | (Hstage & Hdata)]) | (-> & Hstage & Hdata)].
      - literal_tests. cbn [orb andb]. reflexivity.
      - apply (three_stages_cases _ _ Hstage); intros ->; literal_tests; cbn [orb];
          (destruct Hdata as [-> | (o & Ho & Hto)];
           [ reflexivity
           | destruct (truthy (lookup_prop (js "data") props)); cbn [andb];
             [ run_monad; rewrite Ho; cbn; rewrite ?Hto; cbn; rewrite ?Hto; reflexivity
             | reflexivity ] ]).
      - apply (three_stages_cases _ _ Hstage); intros ->; literal_tests; cbn [orb];
          rewrite Hdata; reflexivity. }
    run_monad. unfold fallback_path. run_monad.
    other_stage Hkeys (js "generate_query"). other_stage Hkeys (js "web_research").
    other_stage Hkeys (js "reflection"). other_stage Hkeys (js "finalize_answer").
    reflexivity. }
  split; [exact Hnone|]. unfold deliver, onUpdateEvent. now rewrite Hnone.
Qed.

Lemma traced_event_without_payload_dropped_witness :
  classify (obj [("event", str "on_chain_end"); ("name", str "finalize_answer");
                 ("data", obj [("output", obj [])])]%string)
  = Run [] (Ok None)
  /\ deliver state_after_finalize
       (obj [("event", str "on_chain_end"); ("name", str "finalize_answer");
             ("data", obj [("output", obj [])])]%string)
     = state_after_finalize.
Proof.
  apply (traced_event_without_payload_dropped
           [(js "event", str "on_chain_end"); (js "name", str "finalize_answer");
            (js "data", obj [("output", obj [])]%string)]
           on_chain_end (js "finalize_answer") state_after_finalize).
  - reflexivity.
  - reflexivity.
  - left. split; [reflexivity|]. left. reflexivity.
  - apply stage_keys_check. reflexivity.
Defined.

(** ** Query lists and reflection results *)

(** X3: a traced generate_query event whose output has a [query_list] of
    strings shows them joined by ", "; an empty list is still an end signal
    and shows the empty text. *)
Theorem traced_generate_query_joins (event output : JsVal) (qs : list (list N)) :
  traced_output event (js "generate_query") output ->
  get output (js "query_list") = Ok (JArr (map JStr qs)) ->
  classify event
  = Run [] (Ok (Some {| title := js "Generating Search Queries";
                        data := join_strings (js ", ") qs |})).
Proof.
  intros (props & d & -> & Hm & Hn & Hd & Ho & Ht) Hq.
  destruct (event_type_marker _ Hm) as (t & Et & Hmark).
  destruct (get_truthy_holder _ _ _ Ho Ht) as [Hd' _].
  unfold classify. rewrite (traced_form_obj _ _ Et), Hn, Hd.
  unfold traced_path. rewrite Hmark, Hd'. literal_tests. cbn [andb].
  run_monad. rewrite Ho. cbn. rewrite Ht, Hq. cbn.
  now rewrite array_join_strings.
Qed.

Lemma traced_generate_query_joins_witness :
  classify (obj [("event", str "on_chain_end"); ("name", str "generate_query");
                 ("data", obj [("output",
                    obj [("query_list", JArr [str "rust"; str "rocq"])])])]%string)
  = Run [] (Ok (Some {| title := js "Generating Search Queries";
                        data := js "rust, rocq" |})).
Proof.
  apply (traced_generate_query_joins _
           (obj [("query_list", JArr [str "rust"; str "rocq"])]%string)
           [js "rust"; js "rocq"]).
  - now apply traced_output_check.
  - reflexivity.
Defined.

(** X4: a flattened generate_query entry whose [query_list] is a list of
    strings shows them joined by ", ", and the placeholder
    "Creating queries..." when the joined text is empty. *)
Theorem flattened_generate_query_joins (event entry : JsVal) (qs : list (list N)) :
  flattened_entry event (js "generate_query") entry ->
  get entry (js "query_list") = Ok (JArr (map JStr qs)) ->
  classify event
  = Run [] (Ok (Some {| title := js "Generating Search Queries";
                        data := if is_empty (join_strings (js ", ") qs)
                                then js "Creating queries..."
                                else join_strings (js ", ") qs |})).
Proof.
  intros Hflat Hq. rewrite (flattened_generate_query _ _ Hflat), Hq.
  run_monad. now rewrite array_join_strings.
Qed.

Lemma flattened_generate_query_joins_witness :
  classify (obj [("generate_query",
                  obj [("query_list", JArr [str "rust"; str "rocq"])])]%string)
  = Run [] (Ok (Some {| title := js "Generating Search Queries";
                        data := js "rust, rocq" |})).
Proof.
  apply (flattened_generate_query_joins _
           (obj [("query_list", JArr [str "rust"; str "rocq"])]%string)
           [js "rust"; js "rocq"]).
  - now apply flattened_entry_check.
  - reflexivity.
Defined.

(** X5: a reflection end signal (either shape) whose sufficiency flag is
    truthy shows "Search successful, generating final answer.", whatever its
    follow-up queries are. *)
Theorem reflection_sufficient (event o s : JsVal) :
  end_signal event (js "reflection") o ->
  get o (js "is_sufficient") = Ok s -> truthy s = true ->
  classify event
  = Run [] (Ok (Some {| title := js "Reflection";
                        data := js "Search successful, generating final answer." |})).
Proof.
  intros Hsig Hs Ht. rewrite (end_signal_reflection _ _ Hsig). unfold reflection_result.
  now rewrite (reflection_text_sufficient _ _ Hs Ht).
Qed.

Lemma reflection_sufficient_witness :
  classify (obj [("reflection",
                  obj [("is_sufficient", JBool true);
                       ("follow_up_queries", JArr [str "more"])])]%string)
  = Run [] (Ok (Some {| title := js "Reflection";
                        data := js "Search successful, generating final answer." |})).
Proof.
  apply (reflection_sufficient _
           (obj [("is_sufficient", JBool true);
                 ("follow_up_queries", JArr [str "more"])]%string) (JBool true)).
  - right. now apply flattened_entry_check.
  - reflexivity.
  - reflexivity.
Defined.

(** X6: a reflection end signal (either shape) whose sufficiency flag is
    falsy and whose follow-up queries are strings shows "Need more
    information, searching for " followed by the queries joined by ", "
    (by "additional info" when the joined text is empty). *)
Theorem reflection_follow_up_queries (event o s : JsVal) (qs : list (list N)) :
  end_signal event (js "reflection") o ->
  get o (js "is_sufficient") = Ok s -> truthy s = false ->
  get o (js "follow_up_queries") = Ok (JArr (map JStr qs)) ->
  classify event
  = Run [] (Ok (Some {| title := js "Reflection";
                        data := js "Need more information, searching for "
                                  ++ (if is_empty (join_strings (js ", ") qs)
                                      then js "additional info"
                                      else join_strings (js ", ") qs) |})).
Proof.
  intros Hsig Hs Ht Hq. rewrite (end_signal_reflection _ _ Hsig).
  unfold reflection_result, reflection_text. rewrite Hs. run_monad.
  rewrite Ht, Hq. cbn. now rewrite array_join_strings.
Qed.

Lemma reflection_follow_up_queries_witness :
  classify (obj [("event", str "on_chain_end"); ("name", str "reflection");
                 ("data", obj [("output",
                    obj [("is_sufficient", JBool false);
                         ("follow_up_queries", JArr [str "who"; str "when"])])])]%string)
  = Run [] (Ok (Some {| title := js "Reflection";
                        data := js "Need more information, searching for who, when" |})).
Proof.
  apply (reflection_follow_up_queries _
           (obj [("is_sufficient", JBool false);
                 ("follow_up_queries", JArr [str "who"; str "when"])]%string)
           (JBool false) [js "who"; js "when"]).
  - left. now apply traced_output_check.
  - reflexivity.
  - reflexivity.
  - reflexivity.
Defined.

(** X7: a flattened event whose only stage key is [finalize_answer] is
    classified as Finalizing Answer: the terminal flag is set and the
    Activity is appended, as for the traced start event. *)
Theorem flattened_finalize_sets_flag (event entry : JsVal) (st : AppState) :
  flattened_entry event (js "finalize_answer") entry ->
  classify event = Run [SetFinalizeFlag true] (Ok (Some finalizing))
  /\ deliver st event
     = {| processedEventsTimeline := processedEventsTimeline st ++ [finalizing];
          historicalActivities := historicalActivities st;
          hasFinalizeEventOccurred := true;
          submitted := submitted st |}.
Proof.
  intros (props & -> & Hm & He & Ht & Hothers).
  assert (classify (JObj props) = Run [SetFinalizeFlag true] (Ok (Some finalizing)))
    as Hc.
  { rewrite (unmarked_falls_back _ Hm). unfold fallback_path. run_monad.
    other_stage Hothers (js "generate_query"). other_stage Hothers (js "web_research").
    other_stage Hothers (js "reflection"). rewrite He, Ht. reflexivity. }
  split; [exact Hc|]. unfold deliver, onUpdateEvent. now rewrite Hc.
Qed.

Lemma flattened_finalize_sets_flag_witness :
  hasFinalizeEventOccurred
    (deliver initial_state (obj [("finalize_answer", obj [])]%string)) = true.
Proof.
  destruct (flattened_finalize_sets_flag (obj [("finalize_answer", obj [])]%string)
              (obj []) initial_state) as [_ ->].
  - now apply flattened_entry_check.
  - reflexivity.
Defined.

(** ** What the handler can and cannot do to the state *)

Ltac ordinary_title :=
  split; [reflexivity|]; intros ? [= <-]; apply list_elem_of_In; cbn; tauto.

Lemma traced_path_cases (eventType eventName eventData : JsVal) :
  (emitted (traced_path eventType eventName eventData) = []
   /\ forall a, outcome (traced_path eventType eventName eventData) = Ok (Some a) ->
                title a ∈ ordinary_titles)
  \/ traced_path eventType eventName eventData
     = Run [SetFinalizeFlag true] (Ok (Some finalizing)).
Proof.
  unfold traced_path. run_monad.
  branches; first [ now right | left; first [ ordinary_title | now split ] ].
Qed.

Lemma fallback_path_cases (event : JsVal) :
  (emitted (fallback_path event) = []
   /\ forall a, outcome (fallback_path event) = Ok (Some a) -> title a ∈ ordinary_titles)
  \/ fallback_path event = Run [SetFinalizeFlag true] (Ok (Some finalizing)).
Proof.
  unfold fallback_path. run_monad.
  branches; first [ now right | left; first [ ordinary_title | now split ] ].
Qed.

(** The classifier either recognises the end of the run, setting the flag and
    returning Finalizing Answer, or it has no effect and returns at most an
    Activity of one of the three other stages. *)
Lemma classify_cases (event : JsVal) :
  (emitted (classify event) = []
   /\ forall a, outcome (classify event) = Ok (Some a) -> title a ∈ ordinary_titles)
  \/ classify event = Run [SetFinalizeFlag true] (Ok (Some finalizing)).
Proof.
  unfold classify, traced_form. run_monad.
  destruct (event_type event) as [t|]; cbn; [|now left].
  destruct (get event (js "name")) as [n|]; cbn; [|now left].
  destruct (get event (js "data")) as [d|]; cbn; [|now left].
  destruct (traced_path_cases t n d) as [[He Ht]|H].
  - rewrite He. destruct (outcome (traced_path t n d)) as [[a|]|] eqn:Eo; cbn.
    + left. split; [reflexivity|]. intros a' [= <-]. now apply Ht.
    + destruct (fallback_path_cases event) as [[He' Ht']|H'].
      * rewrite He'. left. split; [reflexivity | exact Ht'].
      * rewrite H'. now right.
    + now left.
  - rewrite H. now right.
Qed.

(** The effects of the handler are the append alone, or the flag and the
    append of Finalizing Answer, or nothing. *)
Lemma onUpdateEvent_cases (event : JsVal) :
  (emitted (onUpdateEvent event) = [] /\ outcome (classify event) <> Ok (Some finalizing))
  \/ (exists a, onUpdateEvent event = Run [AppendTimeline a] (Ok tt)
                /\ outcome (classify event) = Ok (Some a)
                /\ title a ∈ ordinary_titles)
  \/ (onUpdateEvent event
      = Run [SetFinalizeFlag true; AppendTimeline finalizing] (Ok tt)
      /\ outcome (classify event) = Ok (Some finalizing)).
Proof.
  unfold onUpdateEvent. run_monad.
  destruct (classify_cases event) as [[He Ht]|H].
  - rewrite He. destruct (outcome (classify event)) as [[a|]|] eqn:Eo; cbn.
    + right. left. exists a. repeat split. now apply Ht.
    + left. split; [reflexivity | discriminate].
    + left. split; [reflexivity | discriminate].
  - rewrite H. right. right. split; reflexivity.
Qed.

(** X8: delivering an event never writes the History Store and never calls
    the transport; it leaves the Live Timeline as it was or appends exactly
    one Activity at its end; and it never clears the terminal flag. *)
Theorem deliver_only_appends (st : AppState) (event : JsVal) :
  historicalActivities (deliver st event) = historicalActivities st
  /\ submitted (deliver st event) = submitted st
  /\ (processedEventsTimeline (deliver st event) = processedEventsTimeline st
      \/ exists a, outcome (classify event) = Ok (Some a)
                   /\ processedEventsTimeline (deliver st event)
                      = processedEventsTimeline st ++ [a])
  /\ (hasFinalizeEventOccurred st = true ->
      hasFinalizeEventOccurred (deliver st event) = true).
Proof.
  unfold deliver.
  destruct (onUpdateEvent_cases event) as [[He _] | [(a & Hr & Ha & _) | [Hr Ha]]].
  - rewrite He. cbn. auto.
  - rewrite Hr. cbn. repeat split; eauto.
  - rewrite Hr. cbn. repeat split; eauto.
Qed.

(** X9: when the handler throws, it has issued no effect before: the state
    after the event is the state before it. *)
Theorem throwing_handler_has_no_effect (st : AppState) (event : JsVal) :
  outcome (onUpdateEvent event) = Throw -> deliver st event = st.
Proof.
  intros Hthrow. unfold deliver.
  destruct (onUpdateEvent_cases event) as [[He _] | [(a & Hr & _) | [Hr _]]].
  - now rewrite He.
  - rewrite Hr in Hthrow. discriminate Hthrow.
  - rewrite Hr in Hthrow. discriminate Hthrow.
Qed.

Lemma throwing_handler_has_no_effect_witness :
  outcome (onUpdateEvent
             (obj [("web_research", obj [("sources_gathered", JArr [JNull])])]%string))
  = Throw
  /\ deliver state_after_finalize
       (obj [("web_research", obj [("sources_gathered", JArr [JNull])])]%string)
     = state_after_finalize.
Proof.
  split; [reflexivity|].
  apply (throwing_handler_has_no_effect state_after_finalize). reflexivity.
Defined.

(** X10: an event that is [undefined] or [null] makes the handler throw at
    its first property read; a string, number, boolean or array is read
    without error and yields nothing. *)
Theorem non_object_event (event : JsVal) :
  (nullish event = true -> onUpdateEvent event = Run [] Throw)
  /\ (nullish event = false -> (forall props, event <> JObj props) ->
      onUpdateEvent event = Run [] (Ok tt)).
Proof.
  split.
  - destruct event; try discriminate; reflexivity.
  - intros Hnull Hobj.
    destruct event as [| | b | n | s | items | props];
      try reflexivity; try discriminate Hnull.
    now destruct (Hobj props).
Qed.

Lemma non_object_event_witness :
  onUpdateEvent JNull = Run [] Throw
  /\ onUpdateEvent (str "on_chain_start") = Run [] (Ok tt).
Proof.
  split.
  - apply (proj1 (non_object_event JNull)). reflexivity.
  - apply (proj2 (non_object_event (str "on_chain_start"))).
    + reflexivity.
    + discriminate.
Defined.

(** ** Malformed payloads *)

Lemma res_mapM_throw {A B : Type} (f : A -> Res B) (l : list A) (x : A) :
  x ∈ l -> f x = Throw -> res_mapM f l = Throw.
Proof.
  induction l as [|y l IH]; intros Hin Hx.
  - now apply elem_of_nil in Hin.
  - apply elem_of_cons in Hin as [<- | Hin]; cbn.
    + now rewrite Hx.
    + destruct (f y); [|reflexivity]. now rewrite (IH Hin Hx).
Qed.

(** X11: a web research end signal (either shape) whose [sources_gathered]
    holds something that is not an array, or an array with an [undefined] or
    [null] element, makes the handler throw; nothing is appended. *)
Theorem malformed_sources_throw (event o sources : JsVal) (st : AppState) :
  end_signal event (js "web_research") o ->
  get o (js "sources_gathered") = Ok sources ->
  truthy sources = true ->
  match sources with
  | JArr items => exists x, x ∈ items /\ nullish x = true
  | _ => True
  end ->
  onUpdateEvent event = Run [] Throw /\ deliver st event = st.
Proof.
  intros Hsig Hsg Ht Hbad.
  assert (gathered_sources_text o = Throw) as Htext.
  { unfold gathered_sources_text. rewrite Hsg. run_monad. rewrite Ht.
    destruct sources as [| | b | n | s | items | props]; try reflexivity.
    destruct Hbad as (x & Hin & Hx).
    rewrite (res_mapM_throw _ items x Hin); [reflexivity|].
    now destruct x. }
  assert (onUpdateEvent event = Run [] Throw) as Hthrow.
  { unfold onUpdateEvent. rewrite (end_signal_web_research _ _ Hsig).
    unfold web_research_result. now rewrite Htext. }
  split; [exact Hthrow|]. unfold deliver. now rewrite Hthrow.
Qed.

Lemma malformed_sources_throw_witness :
  onUpdateEvent (obj [("web_research", obj [("sources_gathered", str "none")])]%string)
  = Run [] Throw
  /\ deliver initial_state
       (obj [("web_research", obj [("sources_gathered", str "none")])]%string)
     = initial_state.
Proof.
  apply (malformed_sources_throw _ (obj [("sources_gathered", str "none")]%string)
           (str "none") initial_state).
  - right. now apply flattened_entry_check.
  - reflexivity.
  - reflexivity.
  - exact I.
Defined.

(** ** The terminal flag over a run *)

Lemma deliver_flag_iff (st : AppState) (event : JsVal) :
  hasFinalizeEventOccurred (deliver st event) = true
  <-> hasFinalizeEventOccurred st = true
      \/ outcome (classify event) = Ok (Some finalizing).
Proof.
  unfold deliver.
  destruct (onUpdateEvent_cases event) as [[He Hn] | [(a & Hr & Ha & Ht) | [Hr Ha]]].
  - rewrite He. cbn. tauto.
  - rewrite Hr. cbn. split; [tauto|]. intros [H|H]; [exact H|].
    rewrite Ha in H. injection H as ->. exfalso. revert Ht.
    unfold ordinary_titles. rewrite !elem_of_cons, elem_of_nil.
    intros [E|[E|[E|[]]]]; vm_compute in E; discriminate E.
  - rewrite Hr. cbn. tauto.
Qed.

Lemma deliver_all_flag_iff (events : list JsVal) (st : AppState) :
  hasFinalizeEventOccurred (deliver_all events st) = true
  <-> hasFinalizeEventOccurred st = true \/ finalizing ∈ classified events.
Proof.
  revert st. induction events as [|e events IH]; intros st.
  - cbn. rewrite elem_of_nil. tauto.
  - change (deliver_all (e :: events) st) with (deliver_all events (deliver st e)).
    rewrite IH, deliver_flag_iff. cbn [classified flat_map]. rewrite elem_of_app.
    fold (classified events).
    destruct (outcome (classify e)) as [[a|]|].
    + rewrite list_elem_of_singleton.
      split; [intros [[H|H]|H]; auto; injection H as ->; auto|].
      intros [H|[->|H]]; auto.
    + rewrite elem_of_nil. split; [intros [[H|H]|H]; auto; discriminate H | tauto].
    + rewrite elem_of_nil. split; [intros [[H|H]|H]; auto; discriminate H | tauto].
Qed.

(** X12: after a sequence of events the terminal flag is set exactly when
    it was set before or one of the events was classified as Finalizing
    Answer. *)
Theorem flag_after_events (events : list JsVal) (st : AppState) :
  hasFinalizeEventOccurred (deliver_all events st) = true
  <-> hasFinalizeEventOccurred st = true \/ finalizing ∈ classified events.
Proof. apply deliver_all_flag_iff. Qed.

(** X13: a run in which no event was classified as Finalizing Answer is
    never archived: whatever the thread shows afterwards (an error, a
    cancelled stream, a finished answer), the archive effect changes
    nothing. *)
Theorem run_without_finalize_not_archived (events : list JsVal) (thread : Thread)
    (st : AppState) :
  hasFinalizeEventOccurred st = false ->
  finalizing ∉ classified events ->
  archiveEffect thread (deliver_all events st) = []
  /\ reconcile thread (deliver_all events st) = deliver_all events st.
Proof.
  intros Hflag Hnone. apply archiveEffect_idle. left.
  destruct (hasFinalizeEventOccurred (deliver_all events st)) eqn:E; [|reflexivity].
  apply deliver_all_flag_iff in E as [E|E]; [congruence | contradiction].
Qed.

Lemma run_without_finalize_not_archived_witness :
  reconcile thread_answered
    (deliver_all [generate_query_bare_event; web_research_flat_event] initial_state)
  = deliver_all [generate_query_bare_event; web_research_flat_event] initial_state.
Proof.
  apply (run_without_finalize_not_archived
           [generate_query_bare_event; web_research_flat_event] thread_answered
           initial_state).
  - reflexivity.
  - intros H. apply list_elem_of_In in H. vm_compute in H.
    destruct H as [E|[E|[]]]; discriminate E.
Defined.

(** ** More on the archive effect *)

(** What one run of the archive effect amounts to. *)
Lemma reconcile_cases (thread : Thread) (st : AppState) :
  (archiveEffect thread st = [] /\ reconcile thread st = st
   /\ (hasFinalizeEventOccurred st = false \/ isLoading thread = true
       \/ messages thread = []))
  \/ (exists lastMessage,
        hasFinalizeEventOccurred st = true /\ isLoading thread = false
        /\ last_message (messages thread) = Some lastMessage
        /\ reconcile thread st
           = {| processedEventsTimeline := processedEventsTimeline st;
                historicalActivities :=
                  match known_id lastMessage with
                  | Some key =>
                      if str_eqb (type lastMessage) (js "ai")
                      then <[key := processedEventsTimeline st]> (historicalActivities st)
                      else historicalActivities st
                  | None => historicalActivities st
                  end;
                hasFinalizeEventOccurred := false;
                submitted := submitted st |}).
Proof.
  destruct (hasFinalizeEventOccurred st) eqn:Hflag;
    [|left; destruct (archiveEffect_idle thread st) as [? ?]; auto].
  destruct (isLoading thread) eqn:Hload;
    [left; destruct (archiveEffect_idle thread st) as [? ?]; auto|].
  destruct (last_message (messages thread)) as [m|] eqn:Hlast.
  - right. exists m. repeat split; auto.
    unfold reconcile. rewrite (archiveEffect_guarded _ _ _ Hflag Hload Hlast).
    destruct (str_eqb (type m) (js "ai")), (known_id m); reflexivity.
  - left. apply last_None in Hlast.
    destruct (archiveEffect_idle thread st) as [? ?]; auto.
Qed.

(** X14: once the archive effect has run against a thread that is not
    loading and has messages, the terminal flag is down, and a further run of
    the effect, against any thread, changes nothing: a timeline is archived
    at most once per terminal event. *)
Theorem archive_runs_once (thread later : Thread) (st : AppState) :
  isLoading thread = false -> messages thread <> [] ->
  hasFinalizeEventOccurred (reconcile thread st) = false
  /\ reconcile later (reconcile thread st) = reconcile thread st.
Proof.
  intros Hload Hmsgs.
  assert (hasFinalizeEventOccurred (reconcile thread st) = false) as Hdown.
  { destruct (reconcile_cases thread st) as [(_ & -> & [H|[H|H]]) | (m & _ & _ & _ & ->)];
      [exact H | congruence | contradiction | reflexivity]. }
  split; [exact Hdown|]. apply archiveEffect_idle. now left.
Qed.

Lemma archive_runs_once_witness :
  reconcile thread_unanswered (reconcile thread_answered state_after_finalize)
  = reconcile thread_answered state_after_finalize.
Proof.
  apply (archive_runs_once thread_answered thread_unanswered state_after_finalize).
  - reflexivity.
  - discriminate.
Defined.

(** X15: the archive effect never changes the Live Timeline, never calls the
    transport and never sets the terminal flag; in the History Store it can
    change one key only, the id of the thread's last message when that is an
    agent message, and what it stores there is the Live Timeline. *)
Theorem reconcile_frame (thread : Thread) (st : AppState) :
  processedEventsTimeline (reconcile thread st) = processedEventsTimeline st
  /\ submitted (reconcile thread st) = submitted st
  /\ (hasFinalizeEventOccurred (reconcile thread st) = true ->
      hasFinalizeEventOccurred st = true)
  /\ (forall k,
        historicalActivities (reconcile thread st) !! k = historicalActivities st !! k
        \/ (exists lastMessage,
              last_message (messages thread) = Some lastMessage
              /\ type lastMessage = js "ai" /\ id lastMessage = Some k
              /\ historicalActivities (reconcile thread st) !! k
                 = Some (processedEventsTimeline st))).
Proof.
  destruct (reconcile_cases thread st) as [(_ & -> & _) | (m & _ & _ & Hlast & ->)].
  - auto.
  - cbn. repeat split; [discriminate|]. intros k.
    destruct (known_id m) as [key|] eqn:Hid; [|now left].
    destruct (str_eqb (type m) (js "ai")) eqn:Htype; [|now left].
    destruct (decide (key = k)) as [->|Hne].
    + right. exists m. apply str_eqb_eq in Htype. unfold known_id in Hid.
      destruct (id m) as [i|]; [|discriminate].
      destruct (is_empty i); [discriminate|]. injection Hid as ->.
      repeat split; auto. apply lookup_insert_eq.
    + left. now apply lookup_insert_ne.
Qed.

(** ** More on [handleSubmit] *)

(** X16: [handleSubmit] ignores the input exactly when every code unit of it
    is white space or a line terminator (the empty text included). *)
Theorem submit_ignored_iff_blank (thread : Thread) (now : Z) (text : list N)
    (config : AgentConfiguration) :
  handleSubmit thread now text config = []
  <-> forallb is_js_whitespace text = true.
Proof.
  rewrite <- trim_nil_iff. unfold handleSubmit.
  destruct (trim text); cbn [is_empty]; split; intros H; first [reflexivity | discriminate H].
Qed.

(** X17: the id given to a submitted message is never empty, and two
    submissions made at different readings of the clock are given different
    ids. *)
Theorem submitted_ids_distinct (now1 now2 : Z) :
  now1 <> now2 ->
  Z_to_js now1 <> Z_to_js now2 /\ Z_to_js now1 <> [] /\ Z_to_js now2 <> [].
Proof.
  intros Hne. split; [|split; apply Z_to_js_nonempty].
  intros H. now apply Z_to_js_inj in H.
Qed.

Lemma submitted_ids_distinct_witness :
  Z_to_js 1730000000000 <> Z_to_js 1730000000001.
Proof. apply (submitted_ids_distinct 1730000000000 1730000000001). lia. Defined.

(** ** A whole run *)

Lemma deliver_all_history (events : list JsVal) (st : AppState) :
  historicalActivities (deliver_all events st) = historicalActivities st
  /\ submitted (deliver_all events st) = submitted st.
Proof.
  revert st. induction events as [|e events IH]; intros st; [now split|].
  change (deliver_all (e :: events) st) with (deliver_all events (deliver st e)).
  destruct (IH (deliver st e)) as [-> ->]. unfold deliver.
  destruct (onUpdateEvent_cases e) as [[-> _] | [(a & -> & _) | [-> _]]]; now split.
Qed.

Lemma submit_nonblank (thread : Thread) (now : Z) (text : list N)
    (config : AgentConfiguration) (st : AppState) :
  trim text <> [] ->
  submit thread now text config st
  = {| processedEventsTimeline := [];
       historicalActivities := historicalActivities st;
       hasFinalizeEventOccurred := false;
       submitted :=
         submitted st
           ++ [(messages thread
                  ++ [{| type := js "human"; content := text;
                         id := Some (Z_to_js now) |}],
                configurable_of config)] |}.
Proof.
  intros Htext. unfold submit, handleSubmit.
  destruct (trim text); [contradiction | reflexivity].
Qed.

Lemma submit_blank (thread : Thread) (now : Z) (text : list N)
    (config : AgentConfiguration) (st : AppState) :
  trim text = [] -> submit thread now text config st = st.
Proof. intros Htext. unfold submit, handleSubmit. now rewrite Htext. Qed.

(** X18: a whole run.  After a submission with a non-blank text, the events
    of the run, one of them classified as Finalizing Answer, and the archive
    effect against an idle thread that ends with an agent message, the
    History Store holds under that message's id exactly the Activities of
    this run, in arrival order: whatever the Live Timeline held before the
    submission is not part of it.  Every other key of the History Store is
    as before the run. *)
Theorem run_archived_under_answer (before : AppState) (asked answered : Thread)
    (now : Z) (text : list N) (config : AgentConfiguration) (events : list JsVal)
    (lastMessage : Message) (key : list N) :
  trim text <> [] ->
  finalizing ∈ classified events ->
  isLoading answered = false ->
  last_message (messages answered) = Some lastMessage ->
  type lastMessage = js "ai" ->
  id lastMessage = Some key -> key <> [] ->
  let after :=
    reconcile answered (deliver_all events (submit asked now text config before)) in
  historicalActivities after !! key = Some (classified events)
  /\ (forall k, k <> key ->
        historicalActivities after !! k = historicalActivities before !! k)
  /\ hasFinalizeEventOccurred after = false.
Proof.
  intros Htext Hfin Hload Hlast Htype Hid Hkey after. subst after.
  set (st := deliver_all events (submit asked now text config before)).
  assert (hasFinalizeEventOccurred st = true) as Hflag.
  { apply deliver_all_flag_iff. now right. }
  assert (processedEventsTimeline st = classified events) as Htl.
  { unfold st. now rewrite deliver_all_timeline, (submit_nonblank _ _ _ _ _ Htext). }
  assert (historicalActivities st = historicalActivities before) as Hhist.
  { unfold st. destruct (deliver_all_history events (submit asked now text config before))
      as [-> _]. now rewrite (submit_nonblank _ _ _ _ _ Htext). }
  unfold reconcile.
  rewrite (archiveEffect_archives _ _ _ Hflag Hload Hlast key Htype Hid Hkey).
  cbn. rewrite Htl, Hhist. repeat split.
  - apply lookup_insert_eq.
  - intros k Hk. now apply lookup_insert_ne.
Qed.

Lemma run_archived_under_answer_witness :
  historicalActivities
    (reconcile thread_answered
       (deliver_all sample_run
          (submit thread_unanswered 1730000000000 (js "again") sample_config
             state_after_finalize))) !! js "m1"
  = Some [creating_queries; creating_queries; finalizing].
Proof.
  apply (run_archived_under_answer state_after_finalize thread_unanswered
           thread_answered 1730000000000 (js "again") sample_config sample_run
           ai_message_m1 (js "m1")); try reflexivity; try discriminate.
  apply list_elem_of_In. vm_compute. tauto.
Defined.

(** ** Invariants of the reachable states *)

Lemma submit_cases (thread : Thread) (now : Z) (text : list N)
    (config : AgentConfiguration) (st : AppState) :
  submit thread now text config st = st
  \/ exists payload,
       submit thread now text config st
       = {| processedEventsTimeline := [];
            historicalActivities := historicalActivities st;
            hasFinalizeEventOccurred := false;
            submitted := submitted st ++ [payload] |}.
Proof.
  destruct (trim text) as [|c s] eqn:E.
  - left. now apply submit_blank.
  - right. eexists. apply submit_nonblank. rewrite E. discriminate.
Qed.

Lemma app_step_invariant (st st' : AppState) :
  app_step st st' -> app_invariant st -> app_invariant st'.
Proof.
  intros Hstep [Hflag Hhist]. destruct Hstep as [st e | st thread | st thread now text config].
  - unfold deliver.
    destruct (onUpdateEvent_cases e) as [[-> _] | [(a & -> & _) | [-> _]]]; cbn.
    + now split.
    + split; [|exact Hhist]. intros H. apply elem_of_app. left. now apply Hflag.
    + split; [|exact Hhist]. intros _. apply elem_of_app. right.
      apply list_elem_of_singleton. reflexivity.
  - destruct (reconcile_cases thread st) as [(_ & -> & _) | (m & Hup & _ & _ & ->)].
    + now split.
    + split; [discriminate|]. cbn. intros k acts.
      destruct (known_id m) as [key|] eqn:Hid; [|apply Hhist].
      destruct (str_eqb (type m) (js "ai")); [|apply Hhist].
      destruct (decide (key = k)) as [->|Hne].
      * rewrite lookup_insert_eq. intros [= <-]. split; [|now apply Hflag].
        unfold known_id in Hid. destruct (id m) as [i|]; [|discriminate].
        destruct i; [discriminate|]. injection Hid as <-. discriminate.
      * rewrite lookup_insert_ne by assumption. apply Hhist.
  - destruct (submit_cases thread now text config st) as [-> | [payload ->]].
    + now split.
    + split; [discriminate | exact Hhist].
Qed.

Lemma reachable_invariant (st : AppState) : reachable st -> app_invariant st.
Proof.
  unfold reachable. revert st. apply (rtc_ind_r app_invariant initial_state).
  - split; [discriminate|]. intros k acts H. cbn in H. now rewrite lookup_empty in H.
  - intros st st' _ Hstep IH. now apply (app_step_invariant st).
Qed.

(** X19: in every state that [App] can reach from its initial state by
    events, archive effects and submissions, the terminal flag is up only
    while the Live Timeline shows the Finalizing Answer activity. *)
Theorem flag_up_means_finalizing_shown (st : AppState) :
  reachable st -> hasFinalizeEventOccurred st = true ->
  finalizing ∈ processedEventsTimeline st.
Proof. intros Hreach. now apply reachable_invariant. Qed.

(** X20: in every reachable state, each entry of the History Store is filed
    under a non-empty message id and contains the Finalizing Answer
    activity: only the timeline of a run that reached its terminal event is
    ever archived. *)
Theorem archived_timelines_are_finalized (st : AppState) (k : list N)
    (acts : list Activity) :
  reachable st -> historicalActivities st !! k = Some acts ->
  k <> [] /\ finalizing ∈ acts.
Proof. intros Hreach. now apply reachable_invariant. Qed.

Lemma sample_run_reachable :
  reachable (reconcile thread_answered (deliver_all sample_run initial_state)).
Proof.
  unfold reachable. eapply rtc_r; [|apply step_effect].
  unfold sample_run, deliver_all. cbn [fold_left].
  eapply rtc_r; [|apply step_event]. eapply rtc_r; [|apply step_event].
  eapply rtc_r; [|apply step_event]. apply rtc_refl.
Qed.

Lemma sample_delivered_reachable :
  reachable (deliver_all sample_run initial_state).
Proof.
  unfold reachable, sample_run, deliver_all. cbn [fold_left].
  eapply rtc_r; [|apply step_event]. eapply rtc_r; [|apply step_event].
  eapply rtc_r; [|apply step_event]. apply rtc_refl.
Qed.

Lemma flag_up_means_finalizing_shown_witness :
  finalizing ∈ processedEventsTimeline (deliver_all sample_run initial_state).
Proof.
  apply (flag_up_means_finalizing_shown (deliver_all sample_run initial_state)).
  - exact sample_delivered_reachable.
  - reflexivity.
Defined.

Lemma archived_timelines_are_finalized_witness :
  js "m1" <> [] /\ finalizing ∈ [creating_queries; creating_queries; finalizing].
Proof.
  apply (archived_timelines_are_finalized
           (reconcile thread_answered (deliver_all sample_run initial_state))).
  - exact sample_run_reachable.
  - reflexivity.
Defined.

Lemma app_step_monotone (st st' : AppState) :
  app_step st st' ->
  (forall k, is_Some (historicalActivities st !! k) ->
             is_Some (historicalActivities st' !! k))
  /\ submitted st `prefix_of` submitted st'.
Proof.
  intros Hstep. destruct Hstep as [st e | st thread | st thread now text config].
  - unfold deliver.
    destruct (onUpdateEvent_cases e) as [[-> _] | [(a & -> & _) | [-> _]]]; cbn;
      now split.
  - destruct (reconcile_cases thread st) as [(_ & -> & _) | (m & _ & _ & _ & ->)];
      [now split|]. cbn. split; [|reflexivity]. intros k Hk.
    destruct (known_id m) as [key|]; [|exact Hk].
    destruct (str_eqb (type m) (js "ai")); [|exact Hk].
    destruct (decide (key = k)) as [->|Hne].
    + rewrite lookup_insert_eq. eauto.
    + now rewrite lookup_insert_ne.
  - destruct (submit_cases thread now text config st) as [-> | [payload ->]];
      [now split|]. cbn. split; [auto|]. now apply prefix_app_r.
Qed.

(** X21: no reaction of [App] ever removes an entry of the History Store or
    a call already made to the transport: along any sequence of events,
    archive effects and submissions, an id that has an archived timeline
    keeps having one, and the calls to [thread.submit] only grow at the
    end. *)
Theorem history_and_calls_only_grow (st st' : AppState) :
  rtc app_step st st' ->
  (forall k, is_Some (historicalActivities st !! k) ->
             is_Some (historicalActivities st' !! k))
  /\ submitted st `prefix_of` submitted st'.
Proof.
  induction 1 as [st | st mid st' Hstep _ [IHh IHs]].
  - now split.
  - destruct (app_step_monotone _ _ Hstep) as [Hh Hs]. split.
    + intros k Hk. now apply IHh, Hh.
    + now transitivity (submitted mid).
Qed.

Lemma history_and_calls_only_grow_witness :
  is_Some (historicalActivities
             (submit thread_answered 1730000000000 (js "again") sample_config
                (reconcile thread_answered state_after_finalize)) !! js "m1").
Proof.
  apply (history_and_calls_only_grow (reconcile thread_answered state_after_finalize)).
  - apply rtc_once, step_submit.
  - vm_compute. eauto.
Defined.

(** * [InputForm] *)

Module InputFormProps.
Import InputForm.
#[local] Open Scope Z_scope.

Ltac digit_tests :=
  repeat match goal with
  | |- context [is_js_whitespace (digit_unit ?k)] =>
      let v := eval vm_compute in (is_js_whitespace (digit_unit k)) in
      change (is_js_whitespace (digit_unit k)) with v
  | |- context [N.eqb (digit_unit ?k) ?n] =>
      let v := eval vm_compute in (N.eqb (digit_unit k) n) in
      change (N.eqb (digit_unit k) n) with v
  | |- context [digit_value ?r (digit_unit ?k)] =>
      let v := eval vm_compute in (digit_value r (digit_unit k)) in
      change (digit_value r (digit_unit k)) with v
  end.

Lemma parse_digits_units_pos (d : Decimal.uint) (p : positive) :
  parse_digits 10 (uint_units d) (Z.pos p) = Z.pos (Pos.of_uint_acc d p).
Proof.
  revert p. induction d; intros p; cbn [uint_units parse_digits Pos.of_uint_acc];
    digit_tests; cbv beta iota; try reflexivity;
    match goal with
    | |- parse_digits 10 _ ?acc = Z.pos (Pos.of_uint_acc _ ?q) =>
        replace acc with (Z.pos q) by lia
    end; apply IHd.
Qed.

Lemma parse_digits_units (d : Decimal.uint) :
  parse_digits 10 (uint_units d) 0 = Z.of_N (Pos.of_uint d).
Proof.
  induction d; cbn [uint_units parse_digits Pos.of_uint]; digit_tests;
    cbv beta iota; try reflexivity; try exact IHd;
    match goal with
    | |- parse_digits 10 _ ?acc = Z.of_N (N.pos (Pos.of_uint_acc _ ?q)) =>
        replace acc with (Z.pos q) by lia
    end; apply parse_digits_units_pos.
Qed.

(** On a numeral without sign, [parseInt] reads all of it. *)
Lemma parseInt_units (d : Decimal.uint) :
  d <> Nil ->
  parseInt (uint_units d) = Some (parse_digits 10 (uint_units d) 0)
  /\ parseInt (js "-" ++ uint_units d) = Some (- parse_digits 10 (uint_units d) 0).
Proof.
  intros Hd. unfold parseInt.
  change (js "-" ++ uint_units d) with (45%N :: uint_units d).
  cbn [trim_start]. change (is_js_whitespace 45) with false. cbn [N.eqb Pos.eqb].
  destruct d as [|d|d|d|d|d|d|d|d|d|d]; [contradiction|..];
    cbn [uint_units trim_start]; digit_tests; cbn [andb];
    try (destruct d; cbn [uint_units]; digit_tests; cbn [andb orb starts_with_digit];
         digit_tests; split; f_equal; lia);
    cbn [starts_with_digit]; digit_tests; split; f_equal; lia.
Qed.

(** [parseInt] reads back a decimal numeral. *)
Lemma parseInt_decimal (z : Z) : parseInt (Z_to_js z) = Some z.
Proof.
  destruct z as [|p|p]; [reflexivity| |]; unfold Z_to_js; cbn [Z.to_int].
  - assert (Pos.to_uint p <> Nil) as Hd.
    { intros E. pose proof (DecimalPos.Unsigned.of_to p) as Hp.
      rewrite E in Hp. discriminate Hp. }
    destruct (parseInt_units _ Hd) as [-> _].
    now rewrite parse_digits_units, DecimalPos.Unsigned.of_to.
  - assert (Pos.to_uint p <> Nil) as Hd.
    { intros E. pose proof (DecimalPos.Unsigned.of_to p) as Hp.
      rewrite E in Hp. discriminate Hp. }
    destruct (parseInt_units _ Hd) as [_ ->].
    now rewrite parse_digits_units, DecimalPos.Unsigned.of_to.
Qed.

(** X22: [parseInt] reads back the rendering of every integer that a
    JavaScript number holds exactly: what a number input shows for a value
    parses to that value. *)
Theorem parseInt_Z_to_js (z : Z) :
  - 2 ^ 53 < z < 2 ^ 53 -> parseInt (Z_to_js z) = Some z.
Proof. intros _. apply parseInt_decimal. Qed.

Lemma parseInt_Z_to_js_witness :
  parseInt (js "-1730000000000") = Some (-1730000000000).
Proof. apply (parseInt_Z_to_js (-1730000000000)). lia. Defined.

Lemma clamp_or_1 (hi num : Z) :
  1 <= hi ->
  Z.max 1 (Z.min hi (match Some num with Some 0 | None => 1 | Some n => n end))
  = Z.max 1 (Z.min hi num).
Proof. intros Hhi. destruct num; lia. Qed.

(** X23: whatever is typed into the number inputs, the number of initial
    queries ends within 1..10 and the number of loops within 1..20, the
    effort becomes "custom", and nothing else changes; a text without a
    leading number gives 1, and the rendering of an integer [n] gives [n]
    clamped to the bounds. *)
Theorem number_inputs_clamped (value : list N) (st : State) :
  let q := exec_all (handleQueriesChange value) st in
  let l := exec_all (handleLoopsChange value) st in
  (1 <= numberOfQueries q <= 10 /\ effort q = custom /\ maxLoops q = maxLoops st)
  /\ (1 <= maxLoops l <= 20 /\ effort l = custom
      /\ numberOfQueries l = numberOfQueries st)
  /\ (parseInt value = None -> numberOfQueries q = 1 /\ maxLoops l = 1)
  /\ (forall n, value = Z_to_js n ->
        numberOfQueries q = Z.max 1 (Z.min 10 n)
        /\ maxLoops l = Z.max 1 (Z.min 20 n)).
Proof.
  cbn. split; [|split; [|split]].
  - repeat split; lia.
  - repeat split; lia.
  - intros H. unfold parsed_or_1. now rewrite H.
  - intros n ->. unfold parsed_or_1. rewrite parseInt_decimal.
    split; now apply clamp_or_1.
Qed.

(** The handlers keep the form consistent. *)
Lemma step_consistent (st st' : State) : step st st' -> consistent st -> consistent st'.
Proof.
  intros Hstep (Hq & Hl & Hp).
  destruct Hstep as [st v | st e | st | st e | st v | st v | st v | st v | st v | st].
  - exact (conj Hq (conj Hl Hp)).
  - unfold handleInternalKeyDown, handleInternalSubmit.
    destruct (str_eqb (key e) (js "Enter") && negb (shiftKey e));
      destruct (is_empty (trim (internalInputValue st))); exact (conj Hq (conj Hl Hp)).
  - unfold handleInternalSubmit.
    destruct (is_empty (trim (internalInputValue st))); exact (conj Hq (conj Hl Hp)).
  - destruct e; cbn; unfold consistent; cbn; repeat split; try lia; tauto.
  - cbn. unfold consistent. cbn. repeat split; try lia; contradiction.
  - cbn. unfold consistent. cbn. repeat split; try lia; contradiction.
  - exact (conj Hq (conj Hl Hp)).
  - exact (conj Hq (conj Hl Hp)).
  - exact (conj Hq (conj Hl Hp)).
  - exact (conj Hq (conj Hl Hp)).
Qed.

(** X24: in every state that the form reaches from its initial state, by
    typing, keys, submissions, the effort select, the number inputs, the
    model selects and the toggle, the number of initial queries is within
    1..10, the number of loops within 1..20, and an effort other than
    "custom" shows exactly the numbers of its preset. *)
Theorem form_stays_consistent (st : State) : rtc step initial st -> consistent st.
Proof.
  revert st. apply (rtc_ind_r consistent initial).
  - unfold consistent. cbn. repeat split; lia.
  - intros st st' _ Hstep IH. now apply (step_consistent st).
Qed.

Lemma form_stays_consistent_witness :
  consistent (exec_all (handleQueriesChange (js "42")) (exec_all (handleEffortChange high) initial)).
Proof.
  apply form_stays_consistent.
  eapply rtc_r; [|apply step_queries]. eapply rtc_r; [|apply step_effort].
  apply rtc_refl.
Defined.

(** X25: the form and [App] agree on what a blank text is.  When the text is
    blank the form calls nothing and keeps its state; otherwise it calls
    [onSubmit] once, with the text as typed and the configuration on
    display (the three models and the two numbers of the form, no thinking
    mode), and then empties the text field.  [handleSubmit], given that
    call from a consistent form, always dispatches: it clears the Live
    Timeline and the terminal flag and calls the transport with those
    models, a query count within 1..10, a loop budget within 1..20 and the
    thinking mode off. *)
Theorem form_submission_dispatched (e : bool) (st : State) (thread : Thread) (now : Z) :
  let config :=
    {| query_generator_model := queryGeneratorModel st;
       reflection_model := reflectionModel st;
       answer_model := answerModel st;
       number_of_initial_queries := numberOfQueries st;
       max_research_loops := maxLoops st;
       enable_thinking := None |} in
  consistent st ->
  (trim (internalInputValue st) = [] ->
     calls (handleInternalSubmit e st) = []
     /\ exec_all (handleInternalSubmit e st) st = st)
  /\ (trim (internalInputValue st) <> [] ->
        calls (handleInternalSubmit e st) = [(internalInputValue st, config)]
        /\ internalInputValue (exec_all (handleInternalSubmit e st) st) = []
        /\ handleSubmit thread now (internalInputValue st) config
           = [ClearTimeline; SetFinalizeFlag false;
              ThreadSubmit
                (messages thread
                   ++ [{| type := js "human"; content := internalInputValue st;
                          id := Some (Z_to_js now) |}])
                {| cfg_query_generator_model := queryGeneratorModel st;
                   cfg_reflection_model := reflectionModel st;
                   cfg_answer_model := answerModel st;
                   cfg_number_of_initial_queries := numberOfQueries st;
                   cfg_max_research_loops := maxLoops st;
                   cfg_enable_thinking := false |}]
        /\ 1 <= numberOfQueries st <= 10
        /\ 1 <= maxLoops st <= 20).
Proof.
  intros config (Hq & Hl & _). split; intros Htext.
  - unfold handleInternalSubmit. rewrite Htext. destruct e; now split.
  - unfold handleInternalSubmit, handleSubmit.
    destruct (trim (internalInputValue st)) as [|c s]; [contradiction|].
    cbn [is_empty]. repeat split; try lia.
    + now destruct e.
    + now destruct e.
Qed.

Lemma form_submission_dispatched_witness :
  calls (handleInternalSubmit true
           (exec initial (SetInternalInputValue (js "who won?"))))
  = [(js "who won?",
      {| query_generator_model := js "gemini-2.0-flash";
         reflection_model := js "gemini-2.5-flash-preview-04-17";
         answer_model := js "gemini-2.5-flash-preview-04-17";
         number_of_initial_queries := 3;
         max_research_loops := 3;
         enable_thinking := None |})]
  /\ internalInputValue
       (exec_all
          (handleInternalSubmit true
             (exec initial (SetInternalInputValue (js "who won?"))))
          (exec initial (SetInternalInputValue (js "who won?"))))
     = [].
Proof.
  destruct (form_submission_dispatched true
              (exec initial (SetInternalInputValue (js "who won?")))
              thread_unanswered 1730000000000) as [_ H].
  - unfold consistent. cbn. repeat split; try lia.
  - destruct H as (Hcalls & Hinput & _).
    + vm_compute. discriminate.
    + split; [exact Hcalls | exact Hinput].
Defined.

(** X26: the Enter key submits on its own terms.  Without Shift and with a
    non-blank text it calls [onSubmit] exactly as the form's submit does,
    with the text as typed and the configuration on display, also in a state
    where the submit button is disabled because a run is loading; with
    Shift, or for any other key, it does nothing. *)
Theorem enter_key_submits (e : KeyboardEvent) (st : State) :
  (key e = js "Enter" -> shiftKey e = false ->
   trim (internalInputValue st) <> [] ->
     isSubmitDisabled true st = true
     /\ handleInternalKeyDown e st
        = [PreventDefault;
           CallOnSubmit (internalInputValue st)
             {| query_generator_model := queryGeneratorModel st;
                reflection_model := reflectionModel st;
                answer_model := answerModel st;
                number_of_initial_queries := numberOfQueries st;
                max_research_loops := maxLoops st;
                enable_thinking := None |};
           SetInternalInputValue []]
     /\ handleInternalKeyDown e st = PreventDefault :: handleInternalSubmit false st)
  /\ (key e <> js "Enter" \/ shiftKey e = true ->
        handleInternalKeyDown e st = []).
Proof.
  split.
  - intros Hkey Hshift Htext. split; [|split].
    + unfold isSubmitDisabled. apply orb_true_r.
    + unfold handleInternalKeyDown, handleInternalSubmit.
      rewrite Hkey, str_eqb_refl, Hshift.
      destruct (trim (internalInputValue st)); [contradiction | reflexivity].
    + unfold handleInternalKeyDown. now rewrite Hkey, str_eqb_refl, Hshift.
  - intros Hother. unfold handleInternalKeyDown.
    destruct Hother as [Hkey | ->].
    + apply str_eqb_neq in Hkey. now rewrite Hkey.
    + now rewrite andb_false_r.
Qed.

Lemma enter_key_submits_witness :
  handleInternalKeyDown {| key := js "Enter"; shiftKey := false |}
    (exec initial (SetInternalInputValue (js "who won?")))
  = [PreventDefault;
     CallOnSubmit (js "who won?")
       {| query_generator_model := js "gemini-2.0-flash";
          reflection_model := js "gemini-2.5-flash-preview-04-17";
          answer_model := js "gemini-2.5-flash-preview-04-17";
          number_of_initial_queries := 3;
          max_research_loops := 3;
          enable_thinking := None |};
     SetInternalInputValue []]
  /\ handleInternalKeyDown {| key := js "Enter"; shiftKey := true |}
       (exec initial (SetInternalInputValue (js "who won?")))
     = [].
Proof.
  split.
  - apply (proj1 (enter_key_submits {| key := js "Enter"; shiftKey := false |}
                    (exec initial (SetInternalInputValue (js "who won?"))))).
    + reflexivity.
    + reflexivity.
    + vm_compute. discriminate.
  - apply (proj2 (enter_key_submits {| key := js "Enter"; shiftKey := true |}
                    (exec initial (SetInternalInputValue (js "who won?"))))).
    right. reflexivity.
Defined.

End InputFormProps.
